(** * Idempotent registration and stake reconciliation

    A shallow embedding of [lib/repo_tx_registration.go]: the two entry points
    [RegisterWorkerIdempotently] and [RegisterAndStakeReputerIdempotently] of
    the off-chain node, written as programs over the ledger calls they make,
    together with the properties the specification states about them.

    The ledger client is an external collaborator.  A program is therefore a
    finite tree of calls; it is run against an arbitrary [Ledger], an oracle
    that answers each call from the history of the calls made so far.  Every
    theorem quantifies over all ledgers, so it covers a ledger that changes
    under the engine, answers late, or reports an error for a request that
    has landed. *)

From Stdlib Require Import ZArith NArith List String Bool Lia.
Import ListNotations.

Local Open Scope string_scope.
Local Open Scope Z_scope.

(** ** Go values *)

(** A Go [error] value, identified by its message. *)
Definition Error := string.

(** A Go result pair [(value, err)]; [None] is [nil]. *)
Definition GoRet (A : Type) : Type := (A * option Error)%type.

(** [cosmossdk.io/math.Int]: an integer kept within 256 bits of magnitude.
    The operations the engine uses are comparisons, [NewInt] and [Sub];
    [Sub] panics when the difference leaves the range, which is [None]
    here.

    An [Int] is its integer.  The zero value [math.Int{}], which holds no
    integer and on which the library's comparisons and [Sub] panic, is not
    a value of this model: every statement below about an amount the ledger
    answered is about an answer that holds an integer, and none says that a
    call cannot panic on an answer that holds none. *)
Module Int.

Definition MaxBitLen : Z := 256.

Definition in_range (z : Z) : bool := Z.abs z <? 2 ^ MaxBitLen.

(** [NewInt(n int64)]. *)
Definition NewInt (n : Z) : Z := n.

Definition GTE (a b : Z) : bool := b <=? a.
Definition LTE (a b : Z) : bool := a <=? b.
Definition LT (a b : Z) : bool := a <? b.

Definition Sub (a b : Z) : option Z :=
  if in_range (a - b) then Some (a - b) else None.

End Int.

(** ** Configuration and messages *)

Record ChainConfig := { ChainAddress : string }.
Record WalletConfig := { WalletAddress : string }.

(** The fields of the node object the two functions read:
    [node.Chain.Address] and [node.Wallet.Address]. *)
Record NodeConfig := { Chain : ChainConfig; Wallet : WalletConfig }.

Record WorkerConfig := { WorkerTopicId : N }.
Record ReputerConfig := { TopicId : N; MinStake : Z }.

(** [emissionstypes.RegisterRequest]. *)
Record RegisterRequest := {
  RegSender : string;
  RegTopicId : N;
  RegOwner : string;
  IsReputer : bool
}.

(** [emissionstypes.AddStakeRequest]. *)
Record AddStakeRequest := {
  StakeSender : string;
  Amount : Z;
  StakeTopicId : N
}.

Inductive Msg :=
| MsgRegister (m : RegisterRequest)
| MsgAddStake (m : AddStakeRequest).

Record Params := { RegistrationFee : Z }.
Record GetParamsResponse := { ParamsOf : Params }.
Record TxResponse := { TxHash : string }.

(** ** Logging *)

Inductive Level := LInfo | LError.

(** The fields chained on a zerolog event.  [FStrInt] stands for
    [Str(key, v.String())] on an [Int]. *)
Inductive Field :=
| FErr (e : Error)
| FUint64 (key : string) (v : N)
| FStr (key : string) (v : string)
| FStrInt (key : string) (v : Z)
| FInterface (key : string) (v : Z).

(** ** Programs over ledger calls *)

(** One constructor per collaborator call, each with the continuation that
    receives the answer.  [Return b] is Go's [return b]: it leaves the
    function, whatever follows, so that
    [if err != nil { log...; return false }] reads
    [match err with Some e => log ... ;; Return false | None => Ret tt end].
    [Ret] carries on with the next statement.  [Panic] is a Go panic.
    The [context.Background()] handed to the client calls carries no data
    and is left out. *)
Inductive Prog (A : Type) : Type :=
| Ret (a : A)
| Return (b : bool)
| Panic (msg : string)
| OpIsWorkerRegistered (topic : N) (k : GoRet bool -> Prog A)
| OpIsReputerRegistered (topic : N) (k : GoRet bool -> Prog A)
| OpGetParams (k : GoRet GetParamsResponse -> Prog A)
| OpGetBalance (k : GoRet Z -> Prog A)
| OpGetReputerStakeInTopic (topic : N) (addr : string) (k : GoRet Z -> Prog A)
| OpSendDataWithRetry (msg : Msg) (label : string)
    (k : GoRet (option TxResponse) -> Prog A)
| OpLog (lvl : Level) (fields : list Field) (msg : string) (k : Prog A).

Arguments Ret {A} a.
Arguments Return {A} b.
Arguments Panic {A} msg.
Arguments OpIsWorkerRegistered {A} topic k.
Arguments OpIsReputerRegistered {A} topic k.
Arguments OpGetParams {A} k.
Arguments OpGetBalance {A} k.
Arguments OpGetReputerStakeInTopic {A} topic addr k.
Arguments OpSendDataWithRetry {A} msg label k.
Arguments OpLog {A} lvl fields msg k.

Fixpoint bind {A B : Type} (p : Prog A) (f : A -> Prog B) : Prog B :=
  match p with
  | Ret a => f a
  | Return b => Return b
  | Panic m => Panic m
  | OpIsWorkerRegistered t k => OpIsWorkerRegistered t (fun r => bind (k r) f)
  | OpIsReputerRegistered t k => OpIsReputerRegistered t (fun r => bind (k r) f)
  | OpGetParams k => OpGetParams (fun r => bind (k r) f)
  | OpGetBalance k => OpGetBalance (fun r => bind (k r) f)
  | OpGetReputerStakeInTopic t a k =>
      OpGetReputerStakeInTopic t a (fun r => bind (k r) f)
  | OpSendDataWithRetry m l k => OpSendDataWithRetry m l (fun r => bind (k r) f)
  | OpLog lvl fs m k => OpLog lvl fs m (bind k f)
  end.

Declare Scope prog_scope.
Delimit Scope prog_scope with prog.
Bind Scope prog_scope with Prog.

Notation "x <- c1 ;; c2" := (bind c1 (fun x => c2))
  (at level 61, c1 at next level, right associativity) : prog_scope.
Notation "' pat <- c1 ;; c2" :=
  (bind c1 (fun x => match x with pat => c2 end))
  (at level 61, pat pattern, c1 at next level, right associativity) : prog_scope.
Notation "c1 ;; c2" := (bind c1 (fun _ => c2))
  (at level 61, right associativity) : prog_scope.

(** The calls, named as in the source. *)
Definition IsWorkerRegistered (topic : N) : Prog (GoRet bool) :=
  OpIsWorkerRegistered topic Ret.
Definition IsReputerRegistered (topic : N) : Prog (GoRet bool) :=
  OpIsReputerRegistered topic Ret.
Definition GetParams : Prog (GoRet GetParamsResponse) := OpGetParams Ret.
Definition GetBalance : Prog (GoRet Z) := OpGetBalance Ret.
Definition GetReputerStakeInTopic (topic : N) (addr : string) : Prog (GoRet Z) :=
  OpGetReputerStakeInTopic topic addr Ret.
Definition SendDataWithRetry (msg : Msg) (label : string)
  : Prog (GoRet (option TxResponse)) :=
  OpSendDataWithRetry msg label Ret.
Definition log (lvl : Level) (fields : list Field) (msg : string) : Prog unit :=
  OpLog lvl fields msg (Ret tt).

(** [minStake.Sub(stake)], panicking as the library does. *)
Definition IntSub (a b : Z) : Prog Z :=
  match Int.Sub a b with
  | Some d => Ret d
  | None => Panic "integer overflow"
  end.

(** [txHash := ""; if res != nil { txHash = res.TxHash }]. *)
Definition txHashOf (res : option TxResponse) : string :=
  match res with
  | Some r => TxHash r
  | None => ""
  end.

Local Open Scope prog_scope.

(** ** The two entry points *)

(** [func (node *NodeConfig) RegisterWorkerIdempotently(config WorkerConfig) bool] *)
Definition RegisterWorkerIdempotently (node : NodeConfig) (config : WorkerConfig)
  : Prog Empty_set :=
  '(isRegistered, err) <- IsWorkerRegistered (WorkerTopicId config) ;;
  match err with
  | Some e =>
      log LError [FErr e]
        "Could not check if the node is already registered for topic as worker, skipping" ;;
      Return false
  | None => Ret tt
  end ;;
  (if isRegistered then
     log LInfo [FUint64 "topicId" (WorkerTopicId config)]
       "Worker node already registered for topic" ;;
     Return true
   else
     log LInfo [FUint64 "topicId" (WorkerTopicId config)]
       "Worker node not yet registered for topic. Attempting registration...") ;;

  '(moduleParams, err) <- GetParams ;;
  match err with
  | Some e =>
      log LError [FErr e] "Could not get chain params for worker " ;;
      Return false
  | None => Ret tt
  end ;;

  '(balance, err) <- GetBalance ;;
  match err with
  | Some e =>
      log LError [FErr e]
        "Could not check if the worker node has enough balance to register, skipping" ;;
      Return false
  | None => Ret tt
  end ;;
  (if negb (Int.GTE balance (RegistrationFee (ParamsOf moduleParams))) then
     log LError [FStrInt "balance" balance]
       "Worker node does not have enough balance to register, skipping." ;;
     Return false
   else Ret tt) ;;

  let msg := MsgRegister {|
    RegSender := ChainAddress (Chain node);
    RegTopicId := WorkerTopicId config;
    RegOwner := ChainAddress (Chain node);
    IsReputer := false
  |} in
  '(res, err) <- SendDataWithRetry msg "Register worker node" ;;
  match err with
  | Some e =>
      let txHash := txHashOf res in
      log LError [FErr e; FUint64 "topic" (WorkerTopicId config); FStr "txHash" txHash]
        "Could not register the worker node with the Allora blockchain" ;;
      Return false
  | None => Ret tt
  end ;;

  '(isRegistered, err) <- IsWorkerRegistered (WorkerTopicId config) ;;
  match err with
  | Some e =>
      log LError [FErr e]
        "Could not check if the node is already registered for topic as worker, skipping" ;;
      Return false
  | None => Ret tt
  end ;;

  Return isRegistered.

(** [func (node *NodeConfig) RegisterAndStakeReputerIdempotently(config ReputerConfig) bool] *)
Definition RegisterAndStakeReputerIdempotently (node : NodeConfig)
  (config : ReputerConfig) : Prog Empty_set :=
  '(isRegistered, err) <- IsReputerRegistered (TopicId config) ;;
  match err with
  | Some e =>
      log LError [FErr e]
        "Could not check if the node is already registered for topic as reputer, skipping" ;;
      Return false
  | None => Ret tt
  end ;;

  (if isRegistered then
     log LInfo [FUint64 "topicId" (TopicId config)] "Reputer node already registered"
   else
     log LInfo [FUint64 "topicId" (TopicId config)]
       "Reputer node not yet registered. Attempting registration..." ;;

     '(balance, err) <- GetBalance ;;
     match err with
     | Some e =>
         log LError [FErr e]
           "Could not check if the Reputer node has enough balance to register, skipping" ;;
         Return false
     | None => Ret tt
     end ;;
     '(moduleParams, err) <- GetParams ;;
     match err with
     | Some e =>
         log LError [FErr e] "Could not get chain params for reputer" ;;
         Return false
     | None => Ret tt
     end ;;
     (if negb (Int.GTE balance (RegistrationFee (ParamsOf moduleParams))) then
        log LError [] "Reputer node does not have enough balance to register, skipping." ;;
        Return false
      else Ret tt) ;;

     let msgRegister := MsgRegister {|
       RegSender := ChainAddress (Chain node);
       RegTopicId := TopicId config;
       RegOwner := ChainAddress (Chain node);
       IsReputer := true
     |} in
     '(res, err) <- SendDataWithRetry msgRegister "Register reputer node" ;;
     match err with
     | Some e =>
         let txHash := txHashOf res in
         log LError [FErr e; FUint64 "topic" (TopicId config); FStr "txHash" txHash]
           "Could not register the reputer node with the Allora blockchain" ;;
         Return false
     | None => Ret tt
     end ;;

     '(isRegistered, err) <- IsReputerRegistered (TopicId config) ;;
     match err with
     | Some e =>
         log LError [FErr e]
           "Could not check if the node is already registered for topic as reputer, skipping" ;;
         Return false
     | None => Ret tt
     end ;;
     (if negb isRegistered then
        log LError [FUint64 "topicId" (TopicId config)]
          "Reputer node not registered after all retries" ;;
        Return false
      else Ret tt)) ;;

  '(stake, err) <- GetReputerStakeInTopic (TopicId config) (ChainAddress (Chain node)) ;;
  match err with
  | Some e =>
      log LError [FErr e]
        "Could not check if the reputer node has enough balance to stake, skipping" ;;
      Return false
  | None => Ret tt
  end ;;

  let minStake := Int.NewInt (MinStake config) in
  (if Int.LTE minStake stake then
     log LInfo [] "Reputer stake above minimum requested stake, skipping adding stake." ;;
     Return true
   else
     stakeToAdd <- IntSub minStake stake ;;
     log LInfo [FInterface "stake" stake; FInterface "minStake" minStake;
                FInterface "stakeToAdd" stakeToAdd]
       "Reputer stake below minimum requested stake, adding stake.") ;;

  amount <- IntSub minStake stake ;;
  let msgAddStake := MsgAddStake {|
    StakeSender := WalletAddress (Wallet node);
    Amount := amount;
    StakeTopicId := TopicId config
  |} in
  '(res, err) <- SendDataWithRetry msgAddStake "Add reputer stake" ;;
  match err with
  | Some e =>
      let txHash := txHashOf res in
      log LError [FErr e; FUint64 "topic" (TopicId config); FStr "txHash" txHash]
        "Could not stake the reputer node with the Allora blockchain in specified topic" ;;
      Return false
  | None => Ret tt
  end ;;

  '(stake, err) <- GetReputerStakeInTopic (TopicId config) (ChainAddress (Chain node)) ;;
  match err with
  | Some e =>
      log LError [FErr e]
        "Could not check if the reputer node has enough balance to stake, skipping" ;;
      Return false
  | None => Ret tt
  end ;;
  (if Int.LT stake minStake then
     log LError [FInterface "stake" stake; FInterface "minStake" minStake]
       "Reputer stake below minimum requested stake, skipping." ;;
     Return false
   else Ret tt) ;;

  Return true.

Local Close Scope prog_scope.

(** ** Running a program against a ledger *)

Inductive Event :=
| EvIsWorkerRegistered (topic : N) (r : GoRet bool)
| EvIsReputerRegistered (topic : N) (r : GoRet bool)
| EvGetParams (r : GoRet GetParamsResponse)
| EvGetBalance (r : GoRet Z)
| EvGetReputerStakeInTopic (topic : N) (addr : string) (r : GoRet Z)
| EvSendDataWithRetry (msg : Msg) (label : string) (r : GoRet (option TxResponse))
| EvLog (lvl : Level) (fields : list Field) (msg : string).

(** The ledger client as an oracle.  Each answer may depend on everything
    that happened before in the call, given newest first. *)
Record Ledger := {
  onIsWorkerRegistered : list Event -> N -> GoRet bool;
  onIsReputerRegistered : list Event -> N -> GoRet bool;
  onGetParams : list Event -> GoRet GetParamsResponse;
  onGetBalance : list Event -> GoRet Z;
  onGetReputerStakeInTopic : list Event -> N -> string -> GoRet Z;
  onSendDataWithRetry : list Event -> Msg -> string -> GoRet (option TxResponse)
}.

Inductive Outcome (A : Type) :=
| Fell (a : A)
| Returned (b : bool)
| Panicked (msg : string).

Arguments Fell {A} a.
Arguments Returned {A} b.
Arguments Panicked {A} msg.

Definition emit {A} (e : Event) (x : list Event * Outcome A)
  : list Event * Outcome A :=
  (e :: fst x, snd x).

(** [run L past p]: the events of [p] in the order they happen, and how [p]
    ends.  [past] is what happened before [p] started, newest first. *)
Fixpoint run {A : Type} (L : Ledger) (past : list Event) (p : Prog A)
  : list Event * Outcome A :=
  match p with
  | Ret a => ([], Fell a)
  | Return b => ([], Returned b)
  | Panic m => ([], Panicked m)
  | OpIsWorkerRegistered t k =>
      let r := onIsWorkerRegistered L past t in
      let e := EvIsWorkerRegistered t r in
      emit e (run L (e :: past) (k r))
  | OpIsReputerRegistered t k =>
      let r := onIsReputerRegistered L past t in
      let e := EvIsReputerRegistered t r in
      emit e (run L (e :: past) (k r))
  | OpGetParams k =>
      let r := onGetParams L past in
      let e := EvGetParams r in
      emit e (run L (e :: past) (k r))
  | OpGetBalance k =>
      let r := onGetBalance L past in
      let e := EvGetBalance r in
      emit e (run L (e :: past) (k r))
  | OpGetReputerStakeInTopic t a k =>
      let r := onGetReputerStakeInTopic L past t a in
      let e := EvGetReputerStakeInTopic t a r in
      emit e (run L (e :: past) (k r))
  | OpSendDataWithRetry m l k =>
      let r := onSendDataWithRetry L past m l in
      let e := EvSendDataWithRetry m l r in
      emit e (run L (e :: past) (k r))
  | OpLog lvl fs m k =>
      let e := EvLog lvl fs m in
      emit e (run L (e :: past) k)
  end.

(** What one call of an entry point did and returned, from a fresh start. *)
Definition trace {A} (L : Ledger) (p : Prog A) : list Event := fst (run L [] p).
Definition outcome {A} (L : Ledger) (p : Prog A) : Outcome A := snd (run L [] p).

(** ** Observing a trace *)

Definition isCall (e : Event) : bool :=
  match e with
  | EvLog _ _ _ => false
  | _ => true
  end.

(** The ledger calls of a trace, log lines dropped. *)
Definition calls (tr : list Event) : list Event := filter isCall tr.

(** The last ledger call of a trace. *)
Definition lastCall (tr : list Event) : option Event :=
  List.last (map Some (calls tr)) None.

(** The messages handed to [SendDataWithRetry]: the writes. *)
Fixpoint sent (tr : list Event) : list Msg :=
  match tr with
  | [] => []
  | EvSendDataWithRetry m _ _ :: rest => m :: sent rest
  | _ :: rest => sent rest
  end.

Fixpoint registers (tr : list Event) : list RegisterRequest :=
  match tr with
  | [] => []
  | EvSendDataWithRetry (MsgRegister m) _ _ :: rest => m :: registers rest
  | _ :: rest => registers rest
  end.

Fixpoint addStakes (tr : list Event) : list AddStakeRequest :=
  match tr with
  | [] => []
  | EvSendDataWithRetry (MsgAddStake m) _ _ :: rest => m :: addStakes rest
  | _ :: rest => addStakes rest
  end.

(** The first Register submission: what the submit call reported, and the
    events that follow it. *)
Fixpoint afterRegister (tr : list Event)
  : option (GoRet (option TxResponse) * list Event) :=
  match tr with
  | [] => None
  | EvSendDataWithRetry (MsgRegister _) _ r :: rest => Some (r, rest)
  | _ :: rest => afterRegister rest
  end.

(** The first AddStake submission: the events before it, the request, what
    the submit call reported, and the events that follow it. *)
Fixpoint aroundAddStake (tr : list Event)
  : option (list Event * AddStakeRequest * GoRet (option TxResponse) * list Event) :=
  match tr with
  | [] => None
  | EvSendDataWithRetry (MsgAddStake m) _ r :: rest => Some ([], m, r, rest)
  | e :: rest =>
      match aroundAddStake rest with
      | Some (pre, m, r, post) => Some (e :: pre, m, r, post)
      | None => None
      end
  end.

(** The answer of the latest reputer registration read of a trace. *)
Fixpoint lastReputerRead (tr : list Event) : option (GoRet bool) :=
  match tr with
  | [] => None
  | EvIsReputerRegistered _ r :: rest =>
      match lastReputerRead rest with
      | Some r' => Some r'
      | None => Some r
      end
  | _ :: rest => lastReputerRead rest
  end.

(** The answers of the first balance, params and stake reads of a trace. *)
Fixpoint balanceRead (tr : list Event) : option (GoRet Z) :=
  match tr with
  | [] => None
  | EvGetBalance r :: _ => Some r
  | _ :: rest => balanceRead rest
  end.

Fixpoint paramsRead (tr : list Event) : option (GoRet GetParamsResponse) :=
  match tr with
  | [] => None
  | EvGetParams r :: _ => Some r
  | _ :: rest => paramsRead rest
  end.

Fixpoint stakeRead (tr : list Event) : option (GoRet Z) :=
  match tr with
  | [] => None
  | EvGetReputerStakeInTopic _ _ r :: _ => Some r
  | _ :: rest => stakeRead rest
  end.

(** The addresses the stake reads of a trace ask about. *)
Fixpoint stakeQueried (tr : list Event) : list string :=
  match tr with
  | [] => []
  | EvGetReputerStakeInTopic _ a _ :: rest => a :: stakeQueried rest
  | _ :: rest => stakeQueried rest
  end.

Definition isFeeCheckRead (e : Event) : bool :=
  match e with
  | EvGetBalance _ | EvGetParams _ => true
  | _ => false
  end.

(** A ledger read that came back with an error. *)
Definition readFailed (e : Event) : bool :=
  match e with
  | EvIsWorkerRegistered _ (_, Some _)
  | EvIsReputerRegistered _ (_, Some _)
  | EvGetParams (_, Some _)
  | EvGetBalance (_, Some _)
  | EvGetReputerStakeInTopic _ _ (_, Some _) => true
  | _ => false
  end.

(** A registration read confirms registration when it succeeds with [true]. *)
Definition confirms (r : GoRet bool) : bool :=
  match r with
  | (b, None) => b
  | (_, Some _) => false
  end.

(** A stake read meets the target when it succeeds with at least [minStake]. *)
Definition meets (minStake : Z) (r : GoRet Z) : bool :=
  match r with
  | (s, None) => minStake <=? s
  | (_, Some _) => false
  end.

(** ** Concrete ledgers *)

Module Scenario.

Definition hasRegister (past : list Event) : bool :=
  match registers past with [] => false | _ => true end.

Definition hasAddStake (past : list Event) : bool :=
  match addStakes past with [] => false | _ => true end.

(** A ledger described by what it answers before and after each kind of
    write, and by what the two submit calls report. *)
Record Script := {
  regBefore : GoRet bool;
  regAfter : GoRet bool;
  fee : GoRet GetParamsResponse;
  balance : GoRet Z;
  stakeBefore : GoRet Z;
  stakeAfter : GoRet Z;
  registerReport : GoRet (option TxResponse);
  addStakeReport : GoRet (option TxResponse)
}.

Definition ledger (s : Script) : Ledger := {|
  onIsWorkerRegistered past _ := if hasRegister past then regAfter s else regBefore s;
  onIsReputerRegistered past _ := if hasRegister past then regAfter s else regBefore s;
  onGetParams _ := fee s;
  onGetBalance _ := balance s;
  onGetReputerStakeInTopic past _ _ :=
    if hasAddStake past then stakeAfter s else stakeBefore s;
  onSendDataWithRetry _ m _ :=
    match m with
    | MsgRegister _ => registerReport s
    | MsgAddStake _ => addStakeReport s
    end
|}.

Definition ok {A} (a : A) : GoRet A := (a, None).
Definition feeOf (n : Z) : GoRet GetParamsResponse :=
  ok {| ParamsOf := {| RegistrationFee := n |} |}.
Definition landed (h : string) : GoRet (option TxResponse) :=
  ok (Some {| TxHash := h |}).
Definition timedOut : GoRet (option TxResponse) := (None, Some "timed out").

Definition node : NodeConfig :=
  {| Chain := {| ChainAddress := "allo1node" |};
     Wallet := {| WalletAddress := "allo1node" |} |}.

Definition worker : WorkerConfig := {| WorkerTopicId := 1 |}.
Definition reputer : ReputerConfig := {| TopicId := 1; MinStake := 100 |}.

(** Not registered, balance 100, fee 100; both writes land and are visible. *)
Definition fresh : Script := {|
  regBefore := ok false; regAfter := ok true;
  fee := feeOf 100; balance := ok 100;
  stakeBefore := ok 40; stakeAfter := ok 100;
  registerReport := landed "A1"; addStakeReport := landed "B2"
|}.

(** As [fresh], one unit short of the fee. *)
Definition underfunded : Script := {|
  regBefore := ok false; regAfter := ok true;
  fee := feeOf 100; balance := ok 99;
  stakeBefore := ok 40; stakeAfter := ok 100;
  registerReport := landed "A1"; addStakeReport := landed "B2"
|}.

(** Registered already, stake 40 topped up to 100. *)
Definition registered : Script := {|
  regBefore := ok true; regAfter := ok true;
  fee := feeOf 100; balance := ok 100;
  stakeBefore := ok 40; stakeAfter := ok 100;
  registerReport := landed "A1"; addStakeReport := landed "B2"
|}.

(** Registered already, the top-up applied in part: 40 then 70. *)
Definition partial : Script := {|
  regBefore := ok true; regAfter := ok true;
  fee := feeOf 100; balance := ok 100;
  stakeBefore := ok 40; stakeAfter := ok 70;
  registerReport := landed "A1"; addStakeReport := landed "B2"
|}.

(** Registered already, stake at the target. *)
Definition steady : Script := {|
  regBefore := ok true; regAfter := ok true;
  fee := feeOf 100; balance := ok 100;
  stakeBefore := ok 100; stakeAfter := ok 100;
  registerReport := landed "A1"; addStakeReport := landed "B2"
|}.

(** The Register request lands on the ledger, the submit call reports a
    timeout. *)
Definition registerTimesOut : Script := {|
  regBefore := ok false; regAfter := ok true;
  fee := feeOf 100; balance := ok 100;
  stakeBefore := ok 40; stakeAfter := ok 100;
  registerReport := timedOut; addStakeReport := landed "B2"
|}.

(** The AddStake request lands on the ledger, the submit call reports a
    timeout. *)
Definition addStakeTimesOut : Script := {|
  regBefore := ok true; regAfter := ok true;
  fee := feeOf 100; balance := ok 100;
  stakeBefore := ok 40; stakeAfter := ok 100;
  registerReport := landed "A1"; addStakeReport := timedOut
|}.

(** The registration status cannot be read. *)
Definition unreadable : Script := {|
  regBefore := (false, Some "connection refused"); regAfter := ok true;
  fee := feeOf 100; balance := ok 100;
  stakeBefore := ok 40; stakeAfter := ok 100;
  registerReport := landed "A1"; addStakeReport := landed "B2"
|}.

(** A node whose wallet address is not its chain address. *)
Definition twoAddresses : NodeConfig :=
  {| Chain := {| ChainAddress := "allo1chain" |};
     Wallet := {| WalletAddress := "allo1wallet" |} |}.



End Scenario.

(** ** The specification's sentences that the code does not follow *)

(** Worker path, as the specification words it: the registration status is
    read again after the Register submission whatever the submit call
    reported, and the call returns what that read says. *)
Definition rereadsAfterRegister (L : Ledger) (node : NodeConfig)
  (config : WorkerConfig) : Prop :=
  forall report rest,
    afterRegister (trace L (RegisterWorkerIdempotently node config))
      = Some (report, rest) ->
    exists r,
      calls rest = [EvIsWorkerRegistered (WorkerTopicId config) r] /\
      outcome L (RegisterWorkerIdempotently node config) = Returned (confirms r).

(** Stake phase, as the specification words it: the stake is read again
    after the AddStake submission whatever the submit call reported, and the
    call returns whether that read meets [MinStake]. *)
Definition rereadsAfterAddStake (L : Ledger) (node : NodeConfig)
  (config : ReputerConfig) : Prop :=
  forall pre req report rest,
    aroundAddStake (trace L (RegisterAndStakeReputerIdempotently node config))
      = Some (pre, req, report, rest) ->
    exists r,
      calls rest
        = [EvGetReputerStakeInTopic (TopicId config) (ChainAddress (Chain node)) r] /\
      outcome L (RegisterAndStakeReputerIdempotently node config)
        = Returned (meets (MinStake config) r).

(** ** What the ledger answered *)





(** ** Further observations of a trace *)

Definition isErrorLog (e : Event) : bool :=
  match e with
  | EvLog LError _ _ => true
  | _ => false
  end.

(** The lines logged at error level. *)
Definition errorLogs (tr : list Event) : list Event := filter isErrorLog tr.

(** The last event of a trace, log lines included. *)
Definition lastEvent (tr : list Event) : option Event :=
  List.last (map Some tr) None.

(** The events before the first stake read. *)
Fixpoint beforeStakeRead (tr : list Event) : option (list Event) :=
  match tr with
  | [] => None
  | EvGetReputerStakeInTopic _ _ _ :: _ => Some []
  | e :: rest =>
      match beforeStakeRead rest with
      | Some pre => Some (e :: pre)
      | None => None
      end
  end.

(** The first event of a trace is a registration read that succeeded with
    "not registered". *)
Definition startsUnregistered (tr : list Event) : bool :=
  match tr with
  | EvIsWorkerRegistered _ (false, None) :: _
  | EvIsReputerRegistered _ (false, None) :: _ => true
  | _ => false
  end.

(** Every topic an event names, in a call or in a message, is [topic]. *)
Definition onTopic (topic : N) (e : Event) : bool :=
  match e with
  | EvIsWorkerRegistered t _ => N.eqb t topic
  | EvIsReputerRegistered t _ => N.eqb t topic
  | EvGetReputerStakeInTopic t _ _ => N.eqb t topic
  | EvSendDataWithRetry (MsgRegister m) _ _ => N.eqb (RegTopicId m) topic
  | EvSendDataWithRetry (MsgAddStake m) _ _ => N.eqb (StakeTopicId m) topic
  | EvGetParams _ | EvGetBalance _ | EvLog _ _ _ => true
  end.

(** ** Entrypoint adapters ([main.go]) *)

(** [ConvertEntrypointsToInstances] turns the entrypoint names of the user
    configuration into adapter instances.  The adapter type and the factory
    [NewAlloraAdapter] live elsewhere; the adapter type is a parameter and
    the factory is an oracle, as the ledger is. *)
Section Adapters.

Variable Adapter : Type.

(** The fields of [lib.WorkerConfig] and [lib.ReputerConfig] that [main.go]
    reads and writes, next to the ones the registration engine reads.  An
    entrypoint is an interface value, [None] when nil. *)
Record UserWorker := {
  WorkerOf : WorkerConfig;
  InferenceEntrypointName : string;
  InferenceEntrypoint : option Adapter;
  ForecastEntrypointName : string;
  ForecastEntrypoint : option Adapter
}.

Record UserReputer := {
  ReputerOf : ReputerConfig;
  GroundTruthEntrypointName : string;
  GroundTruthEntrypoint : option Adapter;
  LossFunctionEntrypointName : string;
  LossFunctionEntrypoint : option Adapter
}.

(** [lib.UserConfig]: the two slices.  The function receives the struct by
    value, but the slices share their elements with the caller's, so the
    element writes [userConfig.Worker[i].X = adapter] are the caller's to
    see: the configuration after the call is part of the result. *)
Record UserConfig := {
  Worker : list UserWorker;
  Reputer : list UserReputer
}.

Inductive SetupEvent :=
| EvNewAlloraAdapter (name : string) (r : GoRet (option Adapter))
| EvPrintln (msg : string) (e : Error).

(** [NewAlloraAdapter], answering from the calls made so far, newest first. *)
Definition AdapterFactory : Type :=
  list SetupEvent -> string -> GoRet (option Adapter).

(** What happened after [events], which came after [past]. *)
Definition andThen (past events : list SetupEvent) : list SetupEvent :=
  (rev events ++ past)%list.

(** The block the function repeats for each of the four entrypoints:
[[
  if name != "" {
      adapter, err := NewAlloraAdapter(name)
      if err != nil { fmt.Println(label, err); return err }
      field = adapter
  }
]]
    Its result is the events, the field afterwards and the error returned,
    if any. *)
Definition convertEntrypoint (New : AdapterFactory) (past : list SetupEvent)
  (name label : string) (field : option Adapter)
  : list SetupEvent * option Adapter * option Error :=
  if String.eqb name "" then ([], field, None)
  else
    let r := New past name in
    match snd r with
    | Some err => ([EvNewAlloraAdapter name r; EvPrintln label err], field, Some err)
    | None => ([EvNewAlloraAdapter name r], fst r, None)
    end.

(** [for i, x := range xs { body }], where [body] may write [xs[i]] and may
    return an error, which leaves the rest of the slice as it is. *)
Fixpoint forRange {X : Type}
  (body : list SetupEvent -> X -> list SetupEvent * X * option Error)
  (past : list SetupEvent) (xs : list X)
  : list SetupEvent * list X * option Error :=
  match xs with
  | [] => ([], [], None)
  | x :: rest =>
      let '(ev, x', err) := body past x in
      match err with
      | Some e => (ev, x' :: rest, Some e)
      | None =>
          let '(ev', rest', err') := forRange body (andThen past ev) rest in
          ((ev ++ ev')%list, x' :: rest', err')
      end
  end.

(** The body of the first loop: the inference adapter, then the forecast
    adapter of one worker. *)
Definition workerBody (New : AdapterFactory) (past : list SetupEvent)
  (worker : UserWorker) : list SetupEvent * UserWorker * option Error :=
  let '(ev, inference, err) :=
    convertEntrypoint New past (InferenceEntrypointName worker)
      "Error creating inference adapter:" (InferenceEntrypoint worker) in
  let worker' := {|
    WorkerOf := WorkerOf worker;
    InferenceEntrypointName := InferenceEntrypointName worker;
    InferenceEntrypoint := inference;
    ForecastEntrypointName := ForecastEntrypointName worker;
    ForecastEntrypoint := ForecastEntrypoint worker
  |} in
  match err with
  | Some e => (ev, worker', Some e)
  | None =>
      let '(ev', forecast, err') :=
        convertEntrypoint New (andThen past ev) (ForecastEntrypointName worker)
          "Error creating forecast adapter:" (ForecastEntrypoint worker) in
      ((ev ++ ev')%list,
       {| WorkerOf := WorkerOf worker;
          InferenceEntrypointName := InferenceEntrypointName worker;
          InferenceEntrypoint := inference;
          ForecastEntrypointName := ForecastEntrypointName worker;
          ForecastEntrypoint := forecast |},
       err')
  end.

(** The body of the second loop: the ground truth adapter of one reputer. *)
Definition groundTruthBody (New : AdapterFactory) (past : list SetupEvent)
  (reputer : UserReputer) : list SetupEvent * UserReputer * option Error :=
  let '(ev, adapter, err) :=
    convertEntrypoint New past (GroundTruthEntrypointName reputer)
      "Error creating reputer adapter:" (GroundTruthEntrypoint reputer) in
  (ev,
   {| ReputerOf := ReputerOf reputer;
      GroundTruthEntrypointName := GroundTruthEntrypointName reputer;
      GroundTruthEntrypoint := adapter;
      LossFunctionEntrypointName := LossFunctionEntrypointName reputer;
      LossFunctionEntrypoint := LossFunctionEntrypoint reputer |},
   err).

(** The body of the third loop: the loss function adapter of one reputer. *)
Definition lossFunctionBody (New : AdapterFactory) (past : list SetupEvent)
  (reputer : UserReputer) : list SetupEvent * UserReputer * option Error :=
  let '(ev, adapter, err) :=
    convertEntrypoint New past (LossFunctionEntrypointName reputer)
      "Error creating reputer adapter:" (LossFunctionEntrypoint reputer) in
  (ev,
   {| ReputerOf := ReputerOf reputer;
      GroundTruthEntrypointName := GroundTruthEntrypointName reputer;
      GroundTruthEntrypoint := GroundTruthEntrypoint reputer;
      LossFunctionEntrypointName := LossFunctionEntrypointName reputer;
      LossFunctionEntrypoint := adapter |},
   err).

(** [func ConvertEntrypointsToInstances(userConfig lib.UserConfig) error]:
    the events, the configuration the caller sees afterwards, and the error
    returned. *)
Definition ConvertEntrypointsToInstances (New : AdapterFactory)
  (past : list SetupEvent) (userConfig : UserConfig)
  : list SetupEvent * UserConfig * option Error :=
  let '(ev1, workers, err1) := forRange (workerBody New) past (Worker userConfig) in
  match err1 with
  | Some e => (ev1, {| Worker := workers; Reputer := Reputer userConfig |}, Some e)
  | None =>
      let '(ev2, reputers, err2) :=
        forRange (groundTruthBody New) (andThen past ev1) (Reputer userConfig) in
      match err2 with
      | Some e =>
          ((ev1 ++ ev2)%list, {| Worker := workers; Reputer := reputers |}, Some e)
      | None =>
          let '(ev3, reputers', err3) :=
            forRange (lossFunctionBody New) (andThen past (ev1 ++ ev2)) reputers in
          ((ev1 ++ ev2 ++ ev3)%list,
           {| Worker := workers; Reputer := reputers' |}, err3)
      end
  end.

(** *** Observing a conversion *)

(** The names handed to [NewAlloraAdapter], in order. *)
Fixpoint requested (tr : list SetupEvent) : list string :=
  match tr with
  | [] => []
  | EvNewAlloraAdapter name _ :: rest => name :: requested rest
  | EvPrintln _ _ :: rest => requested rest
  end.

(** The errors [NewAlloraAdapter] returned. *)
Fixpoint failures (tr : list SetupEvent) : list Error :=
  match tr with
  | [] => []
  | EvNewAlloraAdapter _ (_, Some e) :: rest => e :: failures rest
  | _ :: rest => failures rest
  end.

(** The errors printed. *)
Fixpoint printed (tr : list SetupEvent) : list Error :=
  match tr with
  | [] => []
  | EvPrintln _ e :: rest => e :: printed rest
  | _ :: rest => printed rest
  end.

Definition named (name : string) : bool := negb (String.eqb name "").

(** The names the configuration asks adapters for, in the order of the
    three loops. *)
Definition wanted (c : UserConfig) : list string :=
  filter named
    (flat_map (fun w => [InferenceEntrypointName w; ForecastEntrypointName w])
       (Worker c)
     ++ map GroundTruthEntrypointName (Reputer c)
     ++ map LossFunctionEntrypointName (Reputer c))%list.

(** Two workers, two reputers that differ in their entrypoints at most. *)
Definition sameWorkerSettings (w w' : UserWorker) : Prop :=
  WorkerOf w' = WorkerOf w /\
  InferenceEntrypointName w' = InferenceEntrypointName w /\
  ForecastEntrypointName w' = ForecastEntrypointName w.

Definition sameReputerSettings (r r' : UserReputer) : Prop :=
  ReputerOf r' = ReputerOf r /\
  GroundTruthEntrypointName r' = GroundTruthEntrypointName r /\
  LossFunctionEntrypointName r' = LossFunctionEntrypointName r.

(** An entrypoint after a conversion that returned no error: left as it was
    when it has no name, and otherwise the adapter of a call that succeeded
    for its name. *)
Definition converted (tr : list SetupEvent) (name : string)
  (before after : option Adapter) : Prop :=
  if String.eqb name "" then after = before
  else In (EvNewAlloraAdapter name (after, None)) tr.

(** The entrypoints of a configuration as the three loops meet them, each
    with the label printed when its adapter cannot be made. *)
Definition entrypoints (c : UserConfig) : list (string * string) :=
  (flat_map
     (fun w => [(InferenceEntrypointName w, "Error creating inference adapter:");
                (ForecastEntrypointName w, "Error creating forecast adapter:")])
     (Worker c)
   ++ map (fun r => (GroundTruthEntrypointName r, "Error creating reputer adapter:"))
        (Reputer c)
   ++ map (fun r => (LossFunctionEntrypointName r, "Error creating reputer adapter:"))
        (Reputer c))%list.

(** One pass over a list of entrypoints: make the adapter of each named
    one, stop at the first that cannot be made. *)
Fixpoint createAll (New : AdapterFactory) (past : list SetupEvent)
  (l : list (string * string)) : list SetupEvent * option Error :=
  match l with
  | [] => ([], None)
  | (name, label) :: rest =>
      let '(ev, _, err) := convertEntrypoint New past name label None in
      match err with
      | Some e => (ev, Some e)
      | None =>
          let '(ev', err') := createAll New (andThen past ev) rest in
          ((ev ++ ev')%list, err')
      end
  end.

(** A factory whose answer depends on the name alone. *)
Definition stateless (New : AdapterFactory) : Prop :=
  forall past past' name, New past name = New past' name.

(** A stateless factory makes an adapter for [name]. *)
Definition accepts (New : AdapterFactory) (name : string) : Prop :=
  snd (New [] name) = None.

(** What a stateless factory leaves in an entrypoint. *)
Definition adapterFor (New : AdapterFactory) (name : string)
  (field : option Adapter) : option Adapter :=
  if String.eqb name "" then field else fst (New [] name).

Definition madeWorker (New : AdapterFactory) (w : UserWorker) : UserWorker := {|
  WorkerOf := WorkerOf w;
  InferenceEntrypointName := InferenceEntrypointName w;
  InferenceEntrypoint :=
    adapterFor New (InferenceEntrypointName w) (InferenceEntrypoint w);
  ForecastEntrypointName := ForecastEntrypointName w;
  ForecastEntrypoint :=
    adapterFor New (ForecastEntrypointName w) (ForecastEntrypoint w)
|}.

Definition madeReputer (New : AdapterFactory) (r : UserReputer) : UserReputer := {|
  ReputerOf := ReputerOf r;
  GroundTruthEntrypointName := GroundTruthEntrypointName r;
  GroundTruthEntrypoint :=
    adapterFor New (GroundTruthEntrypointName r) (GroundTruthEntrypoint r);
  LossFunctionEntrypointName := LossFunctionEntrypointName r;
  LossFunctionEntrypoint :=
    adapterFor New (LossFunctionEntrypointName r) (LossFunctionEntrypoint r)
|}.

Definition madeConfig (New : AdapterFactory) (c : UserConfig) : UserConfig := {|
  Worker := map (madeWorker New) (Worker c);
  Reputer := map (madeReputer New) (Reputer c)
|}.

(** An unnamed entrypoint is as it was. *)
Definition keepsUnnamed (name : string) (before after : option Adapter) : Prop :=
  name = "" -> after = before.

(** What each loop body keeps of the element it works on. *)
Definition workerKept (w w' : UserWorker) : Prop :=
  sameWorkerSettings w w' /\
  keepsUnnamed (InferenceEntrypointName w)
    (InferenceEntrypoint w) (InferenceEntrypoint w') /\
  keepsUnnamed (ForecastEntrypointName w)
    (ForecastEntrypoint w) (ForecastEntrypoint w').

Definition reputerKept (r r' : UserReputer) : Prop :=
  sameReputerSettings r r' /\
  keepsUnnamed (GroundTruthEntrypointName r)
    (GroundTruthEntrypoint r) (GroundTruthEntrypoint r') /\
  keepsUnnamed (LossFunctionEntrypointName r)
    (LossFunctionEntrypoint r) (LossFunctionEntrypoint r').

End Adapters.

Arguments EvNewAlloraAdapter {Adapter} name r.
Arguments EvPrintln {Adapter} msg e.
Arguments WorkerOf {Adapter} u.
Arguments InferenceEntrypointName {Adapter} u.
Arguments InferenceEntrypoint {Adapter} u.
Arguments ForecastEntrypointName {Adapter} u.
Arguments ForecastEntrypoint {Adapter} u.
Arguments ReputerOf {Adapter} u.
Arguments GroundTruthEntrypointName {Adapter} u.
Arguments GroundTruthEntrypoint {Adapter} u.
Arguments LossFunctionEntrypointName {Adapter} u.
Arguments LossFunctionEntrypoint {Adapter} u.
Arguments Worker {Adapter} u.
Arguments Reputer {Adapter} u.
Arguments andThen {Adapter} past events.
Arguments convertEntrypoint {Adapter} New past name label field.
Arguments forRange {Adapter X} body past xs.
Arguments workerBody {Adapter} New past worker.
Arguments groundTruthBody {Adapter} New past reputer.
Arguments lossFunctionBody {Adapter} New past reputer.
Arguments ConvertEntrypointsToInstances {Adapter} New past userConfig.
Arguments requested {Adapter} tr.
Arguments failures {Adapter} tr.
Arguments printed {Adapter} tr.
Arguments wanted {Adapter} c.
Arguments sameWorkerSettings {Adapter} w w'.
Arguments sameReputerSettings {Adapter} r r'.
Arguments converted {Adapter} tr name before after.
Arguments entrypoints {Adapter} c.
Arguments createAll {Adapter} New past l.
Arguments stateless {Adapter} New.
Arguments accepts {Adapter} New name.
Arguments adapterFor {Adapter} New name field.
Arguments madeWorker {Adapter} New w.
Arguments madeReputer {Adapter} New r.
Arguments madeConfig {Adapter} New c.
Arguments keepsUnnamed {Adapter} name before after.
Arguments workerKept {Adapter} w w'.
Arguments reputerKept {Adapter} r r'.

(** A factory that knows two entrypoints and answers the same whatever
    came before, and a configuration for it. *)
Module Setup.

Definition factory : AdapterFactory string :=
  fun _ name =>
    if String.eqb name "api_worker" then (Some "worker adapter", None)
    else if String.eqb name "api_reputer" then (Some "reputer adapter", None)
    else (None, Some "unknown entrypoint").

Definition workerA : UserWorker string := {|
  WorkerOf := {| WorkerTopicId := 1 |};
  InferenceEntrypointName := "api_worker";
  InferenceEntrypoint := None;
  ForecastEntrypointName := "";
  ForecastEntrypoint := None
|}.

Definition reputerA : UserReputer string := {|
  ReputerOf := {| TopicId := 1; MinStake := 100 |};
  GroundTruthEntrypointName := "api_reputer";
  GroundTruthEntrypoint := None;
  LossFunctionEntrypointName := "api_reputer";
  LossFunctionEntrypoint := None
|}.

Definition reputerB : UserReputer string := {|
  ReputerOf := {| TopicId := 2; MinStake := 5 |};
  GroundTruthEntrypointName := "api_reputer";
  GroundTruthEntrypoint := None;
  LossFunctionEntrypointName := "missing";
  LossFunctionEntrypoint := None
|}.

Definition good : UserConfig string :=
  {| Worker := [workerA]; Reputer := [reputerA] |}.

(** The loss function of the second reputer has no adapter. *)
Definition bad : UserConfig string :=
  {| Worker := [workerA]; Reputer := [reputerA; reputerB] |}.

(** Nothing is named. *)
Definition unnamed : UserConfig string :=
  {| Worker :=
       [{| WorkerOf := {| WorkerTopicId := 1 |};
           InferenceEntrypointName := ""; InferenceEntrypoint := Some "kept";
           ForecastEntrypointName := ""; ForecastEntrypoint := None |}];
     Reputer := [] |}.

End Setup.

(** ** Proof tools *)

Arguments Int.GTE : simpl never.
Arguments Int.LTE : simpl never.
Arguments Int.LT : simpl never.
Arguments Int.Sub : simpl never.
Arguments Int.NewInt : simpl never.

(** Follow a run call by call, splitting on what the ledger answers and on
    each test the code makes. *)
Ltac split_on_answers :=
  repeat (cbn; try unfold IntSub;
    match goal with
    | |- context [onIsWorkerRegistered ?L ?h ?t] =>
        destruct (onIsWorkerRegistered L h t) as [? [?|]] eqn:?
    | |- context [onIsReputerRegistered ?L ?h ?t] =>
        destruct (onIsReputerRegistered L h t) as [? [?|]] eqn:?
    | |- context [onGetParams ?L ?h] =>
        destruct (onGetParams L h) as [? [?|]] eqn:?
    | |- context [onGetBalance ?L ?h] =>
        destruct (onGetBalance L h) as [? [?|]] eqn:?
    | |- context [onGetReputerStakeInTopic ?L ?h ?t ?a] =>
        destruct (onGetReputerStakeInTopic L h t a) as [? [?|]] eqn:?
    | |- context [onSendDataWithRetry ?L ?h ?m ?l] =>
        destruct (onSendDataWithRetry L h m l) as [? [?|]] eqn:?
    | |- context [if negb (Int.GTE ?a ?b) then _ else _] =>
        destruct (Int.GTE a b) eqn:?
    | |- context [if Int.LTE ?a ?b then _ else _] => destruct (Int.LTE a b) eqn:?
    | |- context [if Int.LT ?a ?b then _ else _] => destruct (Int.LT a b) eqn:?
    | |- context [Int.Sub ?a ?b] => destruct (Int.Sub a b) eqn:?
    | |- context [if negb ?b then _ else _] => is_var b; destruct b
    | |- context [if ?b then _ else _] => is_var b; destruct b
    end).

(** Turn the code's [Int] tests into facts about integers. *)
Ltac int_facts :=
  unfold Int.GTE, Int.LTE, Int.LT, Int.NewInt, Int.Sub, Int.in_range, Int.MaxBitLen in *.

Ltac leaf_facts :=
  repeat match goal with
  | H : _ /\ _ |- _ => destruct H
  | H : Some _ = None |- _ => discriminate H
  | H : None = Some _ |- _ => discriminate H
  | H : Some _ = Some _ |- _ => injection H as H; subst
  | H : (_, _) = (_, _) |- _ => injection H as ? ?; subst
  | H : _ :: _ = _ :: _ |- _ => inversion H; clear H; subst
  | H : [] = _ :: _ |- _ => discriminate H
  | H : _ :: _ = [] |- _ => discriminate H
  | H : true = false |- _ => discriminate H
  | H : false = true |- _ => discriminate H
  | H : Returned _ = Returned _ |- _ => injection H as H; subst
  | H : Panicked _ = Returned _ |- _ => discriminate H
  end.

Ltac close_leaf :=
  cbn; intros; leaf_facts; cbn in *; leaf_facts;
  try discriminate; try contradiction.

Ltac solve_leaf :=
  close_leaf;
  try solve [ repeat first
    [ reflexivity | assumption | solve [int_facts; lia]
    | split | eexists | constructor ] ].


(** A stake is not negative and [MinStake] is an [int64], so the top-up
    [MinStake - stake] never leaves the range of [Int]. *)
Lemma stake_delta_in_range (minStake stake : Z) :
  0 <= stake -> minStake < 2 ^ 63 -> stake < minStake ->
  Int.in_range (minStake - stake) = true.
Proof.
  intros Hs Hm Hlt.
  unfold Int.in_range, Int.MaxBitLen. apply Z.ltb_lt.
  assert (2 ^ 63 < 2 ^ 256) by (apply Z.pow_lt_mono_r; lia).
  lia.
Qed.

(** ** The worker path *)

Section WorkerPath.

Variables (L : Ledger) (node : NodeConfig) (config : WorkerConfig).

(** Already registered: one read, one log line, [true]. *)
Lemma worker_registered (past : list Event) :
  onIsWorkerRegistered L past (WorkerTopicId config) = (true, None) ->
  run L past (RegisterWorkerIdempotently node config) =
    ([EvIsWorkerRegistered (WorkerTopicId config) (true, None);
      EvLog LInfo [FUint64 "topicId" (WorkerTopicId config)]
        "Worker node already registered for topic"],
     Returned true).
Proof.
  intros H. unfold RegisterWorkerIdempotently. cbn.
  rewrite H. reflexivity.
Qed.

(** At most one Register submission, and no other write. *)
Lemma worker_writes :
  let tr := trace L (RegisterWorkerIdempotently node config) in
  sent tr = map MsgRegister (registers tr) /\
  (List.length (registers tr) <= 1)%nat.
Proof.
  unfold trace, RegisterWorkerIdempotently.
  split_on_answers; cbn; auto.
Qed.

End WorkerPath.

(** ** The reputer path *)

Section ReputerPath.

Variables (L : Ledger) (node : NodeConfig) (config : ReputerConfig).

(** At most one Register and at most one AddStake submission, in that
    order. *)
Lemma reputer_writes :
  let tr := trace L (RegisterAndStakeReputerIdempotently node config) in
  sent tr = (map MsgRegister (registers tr) ++ map MsgAddStake (addStakes tr))%list /\
  (List.length (registers tr) <= 1)%nat /\
  (List.length (addStakes tr) <= 1)%nat.
Proof.
  unfold trace, RegisterAndStakeReputerIdempotently.
  split_on_answers; cbn; auto.
Qed.

(** Which address each message and each stake read carries. *)
Lemma reputer_addresses :
  let tr := trace L (RegisterAndStakeReputerIdempotently node config) in
  Forall (fun m => RegSender m = ChainAddress (Chain node) /\
                   RegOwner m = ChainAddress (Chain node) /\
                   RegTopicId m = TopicId config /\ IsReputer m = true)
    (registers tr) /\
  Forall (fun a => a = ChainAddress (Chain node)) (stakeQueried tr) /\
  Forall (fun m => StakeSender m = WalletAddress (Wallet node) /\
                   StakeTopicId m = TopicId config)
    (addStakes tr).
Proof.
  unfold trace, RegisterAndStakeReputerIdempotently.
  split_on_answers; cbn; repeat split; repeat constructor; auto.
Qed.

End ReputerPath.

(** ** The claims *)

(** C6. Idempotence of worker registration: when the first read reports the
    identity registered, the call returns [true] at once and writes nothing;
    so two calls in a row on a registered identity both return [true], and
    neither writes. *)
Theorem C6_worker_registration_idempotent
  (L : Ledger) (node : NodeConfig) (config : WorkerConfig) :
  let topic := WorkerTopicId config in
  let p := RegisterWorkerIdempotently node config in
  (forall past,
     onIsWorkerRegistered L past topic = (true, None) ->
     snd (run L past p) = Returned true /\
     sent (fst (run L past p)) = [] /\
     calls (fst (run L past p)) = [EvIsWorkerRegistered topic (true, None)]) /\
  ((forall past, sent past = [] ->
      onIsWorkerRegistered L past topic = (true, None)) ->
   let first := run L [] p in
   let second := run L (rev (fst first)) p in
   snd first = Returned true /\ snd second = Returned true /\
   sent (fst first) = [] /\ sent (fst second) = []).
Proof.
  intros topic p. split.
  - intros past H. unfold p. rewrite (worker_registered L node config past H).
    repeat split.
  - intros Hreg first second.
    assert (H1 : first = run L [] p) by reflexivity.
    unfold p in H1. rewrite (worker_registered L node config []) in H1
      by (apply Hreg; reflexivity).
    assert (H2 : second = run L (rev (fst first)) p) by reflexivity.
    unfold p in H2. rewrite (worker_registered L node config) in H2
      by (apply Hreg; rewrite H1; reflexivity).
    rewrite H1, H2. repeat split.
Qed.

Lemma C6_worker_registration_idempotent_witness :
  let L := Scenario.ledger Scenario.registered in
  let p := RegisterWorkerIdempotently Scenario.node Scenario.worker in
  (snd (run L [] p) = Returned true /\ sent (fst (run L [] p)) = []) /\
  (snd (run L (rev (fst (run L [] p))) p) = Returned true /\
   sent (fst (run L (rev (fst (run L [] p))) p)) = []).
Proof.
  pose proof (C6_worker_registration_idempotent
                (Scenario.ledger Scenario.registered)
                Scenario.node Scenario.worker) as [Hone Htwo].
  split.
  - destruct (Hone [] eq_refl) as (Hret & Hsent & _). split; assumption.
  - assert (Hstable : forall past : list Event, sent past = [] ->
      onIsWorkerRegistered (Scenario.ledger Scenario.registered) past
        (WorkerTopicId Scenario.worker) = (true, None)).
    { intros past _. cbn. destruct (Scenario.hasRegister past); reflexivity. }
    destruct (Htwo Hstable) as (_ & Hret & _ & Hsent). split; assumption.
Defined.

(** C9. A ledger read that fails, whichever it is and whether it comes before
    or after a write, makes the call return [false]; when it is the first
    registration read that fails, nothing is written in that call. *)
Theorem C9_failed_read_returns_false
  (L : Ledger) (node : NodeConfig) (wc : WorkerConfig) (rc : ReputerConfig) :
  let w := RegisterWorkerIdempotently node wc in
  let r := RegisterAndStakeReputerIdempotently node rc in
  (existsb readFailed (trace L w) = true -> outcome L w = Returned false) /\
  (existsb readFailed (trace L r) = true -> outcome L r = Returned false) /\
  (forall v e, onIsWorkerRegistered L [] (WorkerTopicId wc) = (v, Some e) ->
     outcome L w = Returned false /\ sent (trace L w) = []) /\
  (forall v e, onIsReputerRegistered L [] (TopicId rc) = (v, Some e) ->
     outcome L r = Returned false /\ sent (trace L r) = []).
Proof.
  intros w r. unfold w, r, trace, outcome.
  split; [| split; [| split]].
  - unfold RegisterWorkerIdempotently. split_on_answers; solve_leaf.
  - unfold RegisterAndStakeReputerIdempotently. split_on_answers; solve_leaf.
  - intros v e Hread. unfold RegisterWorkerIdempotently. cbn.
    rewrite Hread. split; reflexivity.
  - intros v e Hread. unfold RegisterAndStakeReputerIdempotently. cbn.
    rewrite Hread. split; reflexivity.
Qed.

Lemma C9_failed_read_returns_false_witness :
  let L := Scenario.ledger Scenario.unreadable in
  let w := RegisterWorkerIdempotently Scenario.node Scenario.worker in
  let r := RegisterAndStakeReputerIdempotently Scenario.node Scenario.reputer in
  (outcome L w = Returned false /\ sent (trace L w) = []) /\
  (outcome L r = Returned false /\ sent (trace L r) = []).
Proof.
  pose proof (C9_failed_read_returns_false
                (Scenario.ledger Scenario.unreadable)
                Scenario.node Scenario.worker Scenario.reputer)
    as (Hw & Hr & Hw0 & Hr0).
  split.
  - split.
    + apply Hw. reflexivity.
    + apply (Hw0 false "connection refused"). reflexivity.
  - split.
    + apply Hr. reflexivity.
    + apply (Hr0 false "connection refused"). reflexivity.
Defined.

(** C10. Steady-state frame: when the first read reports the identity
    registered, the call reads neither the balance nor the chain params; the
    worker path returns at once and the reputer path goes straight to the
    stake read.  The fee and balance reads happen only when the first read
    reported the identity not registered. *)
Theorem C10_registered_skips_fee_check
  (L : Ledger) (node : NodeConfig) (wc : WorkerConfig) (rc : ReputerConfig) :
  let w := RegisterWorkerIdempotently node wc in
  let r := RegisterAndStakeReputerIdempotently node rc in
  (onIsWorkerRegistered L [] (WorkerTopicId wc) = (true, None) ->
     filter isFeeCheckRead (trace L w) = [] /\
     calls (trace L w) = [EvIsWorkerRegistered (WorkerTopicId wc) (true, None)] /\
     outcome L w = Returned true) /\
  (onIsReputerRegistered L [] (TopicId rc) = (true, None) ->
     filter isFeeCheckRead (trace L r) = [] /\
     exists s rest,
       calls (trace L r) =
         EvIsReputerRegistered (TopicId rc) (true, None)
         :: EvGetReputerStakeInTopic (TopicId rc) (ChainAddress (Chain node)) s
         :: rest) /\
  (filter isFeeCheckRead (trace L w) <> [] ->
     onIsWorkerRegistered L [] (WorkerTopicId wc) = (false, None)) /\
  (filter isFeeCheckRead (trace L r) <> [] ->
     onIsReputerRegistered L [] (TopicId rc) = (false, None)).
Proof.
  intros w r. unfold w, r, trace, outcome.
  split; [| split; [| split]].
  - intros Hreg. rewrite (worker_registered L node wc [] Hreg). repeat split.
  - unfold RegisterAndStakeReputerIdempotently. cbn. intros Hreg.
    rewrite Hreg. split_on_answers; solve_leaf.
  - unfold RegisterWorkerIdempotently. split_on_answers; solve_leaf.
  - unfold RegisterAndStakeReputerIdempotently. split_on_answers; solve_leaf.
Qed.

Lemma C10_registered_skips_fee_check_witness :
  let w := RegisterWorkerIdempotently Scenario.node Scenario.worker in
  let r := RegisterAndStakeReputerIdempotently Scenario.node Scenario.reputer in
  (filter isFeeCheckRead (trace (Scenario.ledger Scenario.registered) w) = [] /\
   outcome (Scenario.ledger Scenario.registered) w = Returned true) /\
  filter isFeeCheckRead (trace (Scenario.ledger Scenario.registered) r) = [] /\
  onIsWorkerRegistered (Scenario.ledger Scenario.fresh) [] 1 = (false, None) /\
  onIsReputerRegistered (Scenario.ledger Scenario.fresh) [] 1 = (false, None).
Proof.
  pose proof (C10_registered_skips_fee_check
                (Scenario.ledger Scenario.registered)
                Scenario.node Scenario.worker Scenario.reputer)
    as (Hw & Hr & _ & _).
  pose proof (C10_registered_skips_fee_check
                (Scenario.ledger Scenario.fresh)
                Scenario.node Scenario.worker Scenario.reputer)
    as (_ & _ & Hwonly & Hronly).
  split; [| split; [| split]].
  - destruct (Hw eq_refl) as (Hnone & _ & Hret). split; assumption.
  - apply Hr. reflexivity.
  - apply Hwonly. vm_compute. discriminate.
  - apply Hronly. vm_compute. discriminate.
Defined.



(** C8. Fresh-read convergence: whenever an entry point returns [true], the
    last thing it did on the ledger is a read that succeeded and showed the
    desired state, a registration read answering [true] on the worker path
    and a stake read of at least [MinStake] on the reputer path; every write
    of the call comes before that read. *)
Theorem C8_true_rests_on_a_fresh_read
  (L : Ledger) (node : NodeConfig) (wc : WorkerConfig) (rc : ReputerConfig) :
  let w := RegisterWorkerIdempotently node wc in
  let r := RegisterAndStakeReputerIdempotently node rc in
  (outcome L w = Returned true ->
     lastCall (trace L w) =
       Some (EvIsWorkerRegistered (WorkerTopicId wc) (true, None))) /\
  (outcome L r = Returned true ->
     exists stake,
       lastCall (trace L r) =
         Some (EvGetReputerStakeInTopic (TopicId rc) (ChainAddress (Chain node))
                 (stake, None)) /\
       MinStake rc <= stake).
Proof.
  intros w r. unfold w, r, trace, outcome, lastCall. split.
  - unfold RegisterWorkerIdempotently. split_on_answers; solve_leaf.
  - unfold RegisterAndStakeReputerIdempotently. split_on_answers; solve_leaf.
Qed.

Lemma C8_true_rests_on_a_fresh_read_witness :
  let L := Scenario.ledger Scenario.fresh in
  lastCall (trace L (RegisterWorkerIdempotently Scenario.node Scenario.worker)) =
    Some (EvIsWorkerRegistered 1 (true, None)) /\
  exists stake,
    lastCall (trace L
                (RegisterAndStakeReputerIdempotently Scenario.node Scenario.reputer)) =
      Some (EvGetReputerStakeInTopic 1 "allo1node" (stake, None)) /\
    100 <= stake.
Proof.
  pose proof (C8_true_rests_on_a_fresh_read
                (Scenario.ledger Scenario.fresh)
                Scenario.node Scenario.worker Scenario.reputer) as (Hw & Hr).
  split.
  - apply Hw. reflexivity.
  - apply Hr. reflexivity.
Defined.

(** C7. Phase ordering: an AddStake message is submitted only after a
    registration read, the first one or the one that follows the Register
    submission, has confirmed the identity registered; and when the read that
    follows the Register submission does not confirm it, the call returns
    [false] with no stake read and no AddStake submission. *)
Theorem C7_stake_only_after_confirmed_registration
  (L : Ledger) (node : NodeConfig) (config : ReputerConfig) :
  let r := RegisterAndStakeReputerIdempotently node config in
  (forall pre req report rest,
     aroundAddStake (trace L r) = Some (pre, req, report, rest) ->
     exists read, lastReputerRead pre = Some read /\ confirms read = true) /\
  (forall report rest read rest',
     afterRegister (trace L r) = Some (report, rest) ->
     calls rest = EvIsReputerRegistered (TopicId config) read :: rest' ->
     confirms read = false ->
     outcome L r = Returned false /\
     rest' = [] /\ stakeQueried (trace L r) = [] /\ addStakes (trace L r) = []).
Proof.
  intros r. subst r. unfold trace, outcome. split.
  - unfold RegisterAndStakeReputerIdempotently. split_on_answers; solve_leaf.
  - unfold RegisterAndStakeReputerIdempotently. split_on_answers; solve_leaf.
Qed.

Lemma C7_stake_only_after_confirmed_registration_witness :
  let r := RegisterAndStakeReputerIdempotently Scenario.node Scenario.reputer in
  (exists read,
     lastReputerRead
       [EvIsReputerRegistered 1 (false, None);
        EvLog LInfo [FUint64 "topicId" 1%N]
          "Reputer node not yet registered. Attempting registration...";
        EvGetBalance (100, None);
        EvGetParams (Scenario.feeOf 100);
        EvSendDataWithRetry
          (MsgRegister {| RegSender := "allo1node"; RegTopicId := 1;
                          RegOwner := "allo1node"; IsReputer := true |})
          "Register reputer node" (Scenario.landed "A1");
        EvIsReputerRegistered 1 (true, None);
        EvGetReputerStakeInTopic 1 "allo1node" (40, None);
        EvLog LInfo
          [FInterface "stake" 40; FInterface "minStake" 100;
           FInterface "stakeToAdd" 60]
          "Reputer stake below minimum requested stake, adding stake."]
     = Some read /\ confirms read = true) /\
  (outcome
     (Scenario.ledger
        {| Scenario.regBefore := Scenario.ok false;
           Scenario.regAfter := Scenario.ok false;
           Scenario.fee := Scenario.feeOf 100;
           Scenario.balance := Scenario.ok 100;
           Scenario.stakeBefore := Scenario.ok 40;
           Scenario.stakeAfter := Scenario.ok 100;
           Scenario.registerReport := Scenario.landed "A1";
           Scenario.addStakeReport := Scenario.landed "B2" |}) r
   = Returned false).
Proof.
  split.
  - apply (proj1 (C7_stake_only_after_confirmed_registration
                    (Scenario.ledger Scenario.fresh)
                    Scenario.node Scenario.reputer)
             _ {| StakeSender := "allo1node"; Amount := 60; StakeTopicId := 1 |}
             (Scenario.landed "B2")
             [EvGetReputerStakeInTopic 1 "allo1node" (100, None)]).
    reflexivity.
  - apply (proj2 (C7_stake_only_after_confirmed_registration
                    (Scenario.ledger _) Scenario.node Scenario.reputer)
             (Scenario.landed "A1")
             [EvIsReputerRegistered 1 (false, None);
              EvLog LError [FUint64 "topicId" 1%N]
                "Reputer node not registered after all retries"]
             (false, None) []);
      reflexivity.
Defined.





(** C2, as the code has it. After an AddStake submission that reports no
    error, the stake is read again and the call returns [true] exactly when
    that read succeeds with at least [MinStake]; after an AddStake submission
    that reports an error, the call returns [false] and the stake is not read
    again. *)
Theorem C2_stake_reread_follows_reported_success
  (L : Ledger) (node : NodeConfig) (config : ReputerConfig) :
  let r := RegisterAndStakeReputerIdempotently node config in
  forall pre req report rest,
    aroundAddStake (trace L r) = Some (pre, req, report, rest) ->
    match snd report with
    | Some _ => calls rest = [] /\ outcome L r = Returned false
    | None =>
        exists read,
          calls rest =
            [EvGetReputerStakeInTopic (TopicId config) (ChainAddress (Chain node))
               read] /\
          outcome L r = Returned (meets (MinStake config) read)
    end.
Proof.
  intros r. subst r. unfold trace, outcome, RegisterAndStakeReputerIdempotently.
  split_on_answers; close_leaf.
  all: try (split; reflexivity).
  all: eexists; split; [reflexivity |]; cbn; f_equal.
  all: int_facts; symmetry; try (apply Z.leb_le; lia); apply Z.leb_gt; lia.
Qed.

Lemma C2_stake_reread_follows_reported_success_witness :
  let r := RegisterAndStakeReputerIdempotently Scenario.node Scenario.reputer in
  (exists read,
     [EvGetReputerStakeInTopic 1 "allo1node" (70, None)] =
       [EvGetReputerStakeInTopic 1 "allo1node" read] /\
     outcome (Scenario.ledger Scenario.partial) r = Returned (meets 100 read)) /\
  outcome (Scenario.ledger Scenario.addStakeTimesOut) r = Returned false.
Proof.
  split.
  - apply (C2_stake_reread_follows_reported_success
             (Scenario.ledger Scenario.partial) Scenario.node Scenario.reputer
             _ _ (Scenario.landed "B2") _ eq_refl).
  - apply (C2_stake_reread_follows_reported_success
             (Scenario.ledger Scenario.addStakeTimesOut)
             Scenario.node Scenario.reputer
             _ _ Scenario.timedOut _ eq_refl).
Defined.

(** C2, as the specification words it, fails: the AddStake request lands and
    lifts the stake to [MinStake], the submit call reports a timeout, and the
    call returns [false] without reading the stake again. *)
Lemma C2_counterexample_add_stake_times_out :
  let L := Scenario.ledger Scenario.addStakeTimesOut in
  let r := RegisterAndStakeReputerIdempotently Scenario.node Scenario.reputer in
  onGetReputerStakeInTopic L (rev (trace L r)) 1 "allo1node" = (100, None) /\
  outcome L r = Returned false /\
  ~ rereadsAfterAddStake L Scenario.node Scenario.reputer.
Proof.
  cbn zeta. split; [reflexivity | split; [reflexivity |]].
  intros Hclaim.
  destruct (Hclaim _ _ _ _ eq_refl) as (read & Hcalls & _).
  discriminate Hcalls.
Qed.

(** C1, as the code has it. After a Register submission that reports no
    error, the registration status is read again: the worker path returns
    exactly what that read says ([false] when it fails); the reputer path
    returns [false] when that read fails or says not registered, and goes on
    to the stake read when it says registered.  After a Register submission
    that reports an error, both paths return [false] and the registration
    status is not read again. *)
Theorem C1_register_reread_follows_reported_success
  (L : Ledger) (node : NodeConfig) (wc : WorkerConfig) (rc : ReputerConfig) :
  let w := RegisterWorkerIdempotently node wc in
  let r := RegisterAndStakeReputerIdempotently node rc in
  (forall report rest,
     afterRegister (trace L w) = Some (report, rest) ->
     match snd report with
     | Some _ => calls rest = [] /\ outcome L w = Returned false
     | None =>
         exists read,
           calls rest = [EvIsWorkerRegistered (WorkerTopicId wc) read] /\
           outcome L w = Returned (confirms read)
     end) /\
  (forall report rest,
     afterRegister (trace L r) = Some (report, rest) ->
     match snd report with
     | Some _ => calls rest = [] /\ outcome L r = Returned false
     | None =>
         exists read rest',
           calls rest = EvIsReputerRegistered (TopicId rc) read :: rest' /\
           if confirms read
           then exists stake rest'',
                  rest' = EvGetReputerStakeInTopic (TopicId rc)
                            (ChainAddress (Chain node)) stake :: rest''
           else rest' = [] /\ outcome L r = Returned false
     end).
Proof.
  intros w r. subst w r. unfold trace, outcome. split.
  - unfold RegisterWorkerIdempotently. split_on_answers; solve_leaf.
  - unfold RegisterAndStakeReputerIdempotently. split_on_answers; close_leaf.
    all: try (split; reflexivity).
    all: eexists; eexists; split; [reflexivity |]; cbn.
    all: try (split; reflexivity).
    all: eexists; eexists; reflexivity.
Qed.

Lemma C1_register_reread_follows_reported_success_witness :
  let w := RegisterWorkerIdempotently Scenario.node Scenario.worker in
  let r := RegisterAndStakeReputerIdempotently Scenario.node Scenario.reputer in
  (exists read,
     [EvIsWorkerRegistered 1 (true, None)] = [EvIsWorkerRegistered 1 read] /\
     outcome (Scenario.ledger Scenario.fresh) w = Returned (confirms read)) /\
  outcome (Scenario.ledger Scenario.registerTimesOut) w = Returned false /\
  outcome (Scenario.ledger Scenario.registerTimesOut) r = Returned false /\
  (exists read rest',
     calls (skipn 5 (trace (Scenario.ledger Scenario.fresh) r)) =
       EvIsReputerRegistered 1 read :: rest' /\
     if confirms read
     then exists stake rest'',
            rest' = EvGetReputerStakeInTopic 1 "allo1node" stake :: rest''
     else rest' = [] /\
          outcome (Scenario.ledger Scenario.fresh) r = Returned false).
Proof.
  split; [| split; [| split]].
  - apply (proj1 (C1_register_reread_follows_reported_success
                    (Scenario.ledger Scenario.fresh)
                    Scenario.node Scenario.worker Scenario.reputer)
             (Scenario.landed "A1") _ eq_refl).
  - apply (proj1 (C1_register_reread_follows_reported_success
                    (Scenario.ledger Scenario.registerTimesOut)
                    Scenario.node Scenario.worker Scenario.reputer)
             Scenario.timedOut _ eq_refl).
  - apply (proj2 (C1_register_reread_follows_reported_success
                    (Scenario.ledger Scenario.registerTimesOut)
                    Scenario.node Scenario.worker Scenario.reputer)
             Scenario.timedOut _ eq_refl).
  - apply (proj2 (C1_register_reread_follows_reported_success
                    (Scenario.ledger Scenario.fresh)
                    Scenario.node Scenario.worker Scenario.reputer)
             (Scenario.landed "A1") _ eq_refl).
Defined.

(** C1, as the specification words it, fails: the Register request lands, so
    that the ledger answers [true] to a registration read from then on, the
    submit call reports a timeout, and the call returns [false] without
    reading the registration status again. *)
Lemma C1_counterexample_register_times_out :
  let L := Scenario.ledger Scenario.registerTimesOut in
  let w := RegisterWorkerIdempotently Scenario.node Scenario.worker in
  onIsWorkerRegistered L (rev (trace L w)) 1 = (true, None) /\
  outcome L w = Returned false /\
  ~ rereadsAfterRegister L Scenario.node Scenario.worker.
Proof.
  cbn zeta. split; [reflexivity | split; [reflexivity |]].
  intros Hclaim.
  destruct (Hclaim _ _ eq_refl) as (read & Hcalls & _).
  discriminate Hcalls.
Qed.

(** C3. The AddStake message takes its sender from [node.Wallet.Address],
    while the Register message and both stake reads use
    [node.Chain.Address]: on a node whose two addresses differ, the stake is
    added under one address and read under the other. *)
Theorem C3_add_stake_sender_is_the_wallet_address :
  let L := Scenario.ledger Scenario.fresh in
  let r := RegisterAndStakeReputerIdempotently Scenario.twoAddresses Scenario.reputer in
  registers (trace L r) =
    [{| RegSender := "allo1chain"; RegTopicId := 1;
        RegOwner := "allo1chain"; IsReputer := true |}] /\
  stakeQueried (trace L r) = ["allo1chain"; "allo1chain"] /\
  addStakes (trace L r) =
    [{| StakeSender := "allo1wallet"; Amount := 60; StakeTopicId := 1 |}] /\
  "allo1wallet" <> "allo1chain".
Proof.
  cbn zeta. repeat split. discriminate.
Qed.

(** ** The scenarios of the specification *)

(** Balance 100, fee 100, not registered: the Register message is submitted,
    the read that follows says registered, the call returns [true]. *)
Example scenario_exactly_funded :
  let L := Scenario.ledger Scenario.fresh in
  let w := RegisterWorkerIdempotently Scenario.node Scenario.worker in
  List.length (registers (trace L w)) = 1%nat /\ outcome L w = Returned true.
Proof. split; reflexivity. Qed.

(** Balance 99, fee 100: no Register message, [false]. *)
Example scenario_one_short :
  let L := Scenario.ledger Scenario.underfunded in
  let w := RegisterWorkerIdempotently Scenario.node Scenario.worker in
  registers (trace L w) = [] /\ outcome L w = Returned false.
Proof. split; reflexivity. Qed.

(** Registered, stake 40, target 100: AddStake(60); stake then 100, [true]. *)
Example scenario_top_up :
  let L := Scenario.ledger Scenario.registered in
  let r := RegisterAndStakeReputerIdempotently Scenario.node Scenario.reputer in
  map Amount (addStakes (trace L r)) = [60] /\ outcome L r = Returned true.
Proof. split; reflexivity. Qed.

(** The same, the stake then 70: [false]. *)
Example scenario_partial_top_up :
  let L := Scenario.ledger Scenario.partial in
  let r := RegisterAndStakeReputerIdempotently Scenario.node Scenario.reputer in
  map Amount (addStakes (trace L r)) = [60] /\ outcome L r = Returned false.
Proof. split; reflexivity. Qed.

(** ** Further properties of the registration engine *)

(** X1. The worker path makes at most five ledger calls, of which at most
    one is a write; the only message it ever submits is a Register request
    for the configured topic with [IsReputer] false and the chain address as
    sender and owner; it never reads a stake. *)
Theorem X1_worker_submits_at_most_one_register
  (L : Ledger) (node : NodeConfig) (config : WorkerConfig) :
  let w := RegisterWorkerIdempotently node config in
  (List.length (calls (trace L w)) <= 5)%nat /\
  (sent (trace L w) = [] \/
   sent (trace L w) =
     [MsgRegister {| RegSender := ChainAddress (Chain node);
                     RegTopicId := WorkerTopicId config;
                     RegOwner := ChainAddress (Chain node);
                     IsReputer := false |}]) /\
  stakeQueried (trace L w) = [].
Proof.
  intros w. subst w. unfold trace, RegisterWorkerIdempotently.
  split_on_answers; cbn; repeat split; eauto; lia.
Qed.

(** X2. The reputer path makes at most eight ledger calls, of which at most
    two are writes: at most one Register request, then at most one AddStake
    request, never the other way round. *)
Theorem X2_reputer_register_then_add_stake
  (L : Ledger) (node : NodeConfig) (config : ReputerConfig) :
  let tr := trace L (RegisterAndStakeReputerIdempotently node config) in
  (List.length (calls tr) <= 8)%nat /\
  sent tr = (map MsgRegister (registers tr) ++ map MsgAddStake (addStakes tr))%list /\
  (List.length (registers tr) <= 1)%nat /\
  (List.length (addStakes tr) <= 1)%nat.
Proof.
  unfold trace, RegisterAndStakeReputerIdempotently.
  split_on_answers; cbn; repeat split; lia.
Qed.

(** X3. The top-up never overflows on a ledger's stakes: in a call whose
    stake reads are not negative and whose [MinStake] is an [int64],
    [minStake.Sub(stake)] stays within the range of [Int], so the call does
    not end in the library's "integer overflow" panic. *)
Theorem X3_top_up_never_overflows_on_ledger_stakes
  (L : Ledger) (node : NodeConfig) (config : ReputerConfig) :
  let r := RegisterAndStakeReputerIdempotently node config in
  (forall stake, stakeRead (trace L r) = Some (stake, None) -> 0 <= stake) ->
  MinStake config < 2 ^ 63 ->
  outcome L r <> Panicked "integer overflow".
Proof.
  intros r. subst r. unfold trace, outcome, RegisterAndStakeReputerIdempotently.
  split_on_answers; cbn; intros Hstake Hmin; try discriminate.
  all: exfalso.
  all: match goal with
       | H : Int.Sub (Int.NewInt ?m) ?s = None |- _ =>
           assert (Hin : Int.in_range (m - s) = true)
             by (apply stake_delta_in_range;
                 [apply Hstake; reflexivity | assumption | int_facts; lia]);
           unfold Int.Sub, Int.NewInt in H; rewrite Hin in H; discriminate H
       end.
Qed.

Lemma X3_top_up_never_overflows_on_ledger_stakes_witness :
  outcome (Scenario.ledger Scenario.partial)
    (RegisterAndStakeReputerIdempotently Scenario.node Scenario.reputer)
  <> Panicked "integer overflow".
Proof.
  apply (X3_top_up_never_overflows_on_ledger_stakes
           (Scenario.ledger Scenario.partial) Scenario.node Scenario.reputer).
  - cbn. intros stake H. injection H as H. subst stake. lia.
  - cbn. lia.
Defined.

(** X4. A funded registration is attempted: on either path, once the balance
    and the fee have been read and the balance is at least the fee, the fee
    itself included, exactly one Register request is submitted, for the
    configured topic and role, with the chain address as sender and owner. *)
Theorem X4_funded_registration_is_submitted
  (L : Ledger) (node : NodeConfig) (wc : WorkerConfig) (rc : ReputerConfig) :
  let w := RegisterWorkerIdempotently node wc in
  let r := RegisterAndStakeReputerIdempotently node rc in
  (forall balance params,
     balanceRead (trace L w) = Some (balance, None) ->
     paramsRead (trace L w) = Some (params, None) ->
     RegistrationFee (ParamsOf params) <= balance ->
     registers (trace L w) =
       [{| RegSender := ChainAddress (Chain node);
           RegTopicId := WorkerTopicId wc;
           RegOwner := ChainAddress (Chain node);
           IsReputer := false |}]) /\
  (forall balance params,
     balanceRead (trace L r) = Some (balance, None) ->
     paramsRead (trace L r) = Some (params, None) ->
     RegistrationFee (ParamsOf params) <= balance ->
     registers (trace L r) =
       [{| RegSender := ChainAddress (Chain node);
           RegTopicId := TopicId rc;
           RegOwner := ChainAddress (Chain node);
           IsReputer := true |}]).
Proof.
  intros w r. subst w r. unfold trace, outcome. split.
  - unfold RegisterWorkerIdempotently. split_on_answers; solve_leaf.
  - unfold RegisterAndStakeReputerIdempotently. split_on_answers; solve_leaf.
Qed.

Lemma X4_funded_registration_is_submitted_witness :
  let L := Scenario.ledger Scenario.fresh in
  List.length
    (registers (trace L (RegisterWorkerIdempotently Scenario.node Scenario.worker)))
    = 1%nat /\
  List.length
    (registers
       (trace L (RegisterAndStakeReputerIdempotently Scenario.node Scenario.reputer)))
    = 1%nat.
Proof.
  pose proof (X4_funded_registration_is_submitted
                (Scenario.ledger Scenario.fresh)
                Scenario.node Scenario.worker Scenario.reputer) as (Hw & Hr).
  split.
  - rewrite (Hw 100 {| ParamsOf := {| RegistrationFee := 100 |} |});
      [reflexivity | reflexivity | reflexivity | cbn; lia].
  - rewrite (Hr 100 {| ParamsOf := {| RegistrationFee := 100 |} |});
      [reflexivity | reflexivity | reflexivity | cbn; lia].
Defined.

(** X5. A Register request is submitted only by a call that began with a
    registration read answering "not registered" and then read a fee and a
    balance of at least that fee, both without error. *)
Theorem X5_register_only_when_unregistered_and_funded
  (L : Ledger) (node : NodeConfig) (wc : WorkerConfig) (rc : ReputerConfig) :
  let w := RegisterWorkerIdempotently node wc in
  let r := RegisterAndStakeReputerIdempotently node rc in
  (registers (trace L w) <> [] ->
     startsUnregistered (trace L w) = true /\
     exists balance params,
       balanceRead (trace L w) = Some (balance, None) /\
       paramsRead (trace L w) = Some (params, None) /\
       RegistrationFee (ParamsOf params) <= balance) /\
  (registers (trace L r) <> [] ->
     startsUnregistered (trace L r) = true /\
     exists balance params,
       balanceRead (trace L r) = Some (balance, None) /\
       paramsRead (trace L r) = Some (params, None) /\
       RegistrationFee (ParamsOf params) <= balance).
Proof.
  intros w r. subst w r. unfold trace, outcome. split.
  - unfold RegisterWorkerIdempotently. split_on_answers; solve_leaf.
  - unfold RegisterAndStakeReputerIdempotently. split_on_answers; solve_leaf.
Qed.

Lemma X5_register_only_when_unregistered_and_funded_witness :
  let L := Scenario.ledger Scenario.fresh in
  startsUnregistered
    (trace L (RegisterWorkerIdempotently Scenario.node Scenario.worker)) = true /\
  startsUnregistered
    (trace L (RegisterAndStakeReputerIdempotently Scenario.node Scenario.reputer))
    = true.
Proof.
  pose proof (X5_register_only_when_unregistered_and_funded
                (Scenario.ledger Scenario.fresh)
                Scenario.node Scenario.worker Scenario.reputer) as (Hw & Hr).
  split.
  - apply Hw. vm_compute. discriminate.
  - apply Hr. vm_compute. discriminate.
Defined.

(** X6. Steady state of the reputer path: when the registration read says
    registered and the stake read says at least [MinStake], the call is
    those two reads and nothing else, and returns [true]; so two calls in a
    row on a ledger that stays that way both return [true] and write
    nothing. *)
Theorem X6_reputer_steady_state_is_two_reads
  (L : Ledger) (node : NodeConfig) (config : ReputerConfig) :
  let r := RegisterAndStakeReputerIdempotently node config in
  let topic := TopicId config in
  let address := ChainAddress (Chain node) in
  (forall past stake,
     onIsReputerRegistered L past topic = (true, None) ->
     onGetReputerStakeInTopic L
       (EvLog LInfo [FUint64 "topicId" topic] "Reputer node already registered"
        :: EvIsReputerRegistered topic (true, None) :: past) topic address
       = (stake, None) ->
     MinStake config <= stake ->
     calls (fst (run L past r)) =
       [EvIsReputerRegistered topic (true, None);
        EvGetReputerStakeInTopic topic address (stake, None)] /\
     snd (run L past r) = Returned true) /\
  ((forall past, sent past = [] ->
      onIsReputerRegistered L past topic = (true, None) /\
      exists stake,
        onGetReputerStakeInTopic L past topic address = (stake, None) /\
        MinStake config <= stake) ->
   let first := run L [] r in
   let second := run L (rev (fst first)) r in
   snd first = Returned true /\ snd second = Returned true /\
   sent (fst first) = [] /\ sent (fst second) = []).
Proof.
  intros r topic address.
  assert (Hone : forall past stake,
     onIsReputerRegistered L past topic = (true, None) ->
     onGetReputerStakeInTopic L
       (EvLog LInfo [FUint64 "topicId" topic] "Reputer node already registered"
        :: EvIsReputerRegistered topic (true, None) :: past) topic address
       = (stake, None) ->
     MinStake config <= stake ->
     run L past r =
       ([EvIsReputerRegistered topic (true, None);
         EvLog LInfo [FUint64 "topicId" topic] "Reputer node already registered";
         EvGetReputerStakeInTopic topic address (stake, None);
         EvLog LInfo []
           "Reputer stake above minimum requested stake, skipping adding stake."],
        Returned true)).
  { intros past stake Hreg Hstake Hmin.
    subst r topic address. unfold RegisterAndStakeReputerIdempotently. cbn.
    rewrite Hreg. cbn. rewrite Hstake. cbn.
    replace (Int.LTE (Int.NewInt (MinStake config)) stake) with true
      by (int_facts; symmetry; apply Z.leb_le; assumption).
    reflexivity. }
  split.
  - intros past stake Hreg Hstake Hmin.
    rewrite (Hone past stake Hreg Hstake Hmin). split; reflexivity.
  - intros Hsteady first second.
    destruct (Hsteady [] eq_refl) as (Hreg1 & _).
    destruct (Hsteady
                (EvLog LInfo [FUint64 "topicId" topic] "Reputer node already registered"
                 :: [EvIsReputerRegistered topic (true, None)]) eq_refl)
      as (_ & stake1 & Hstake1 & Hmin1).
    assert (H1 : first = run L [] r) by reflexivity.
    rewrite (Hone [] stake1 Hreg1 Hstake1 Hmin1) in H1.
    assert (H2 : second = run L (rev (fst first)) r) by reflexivity.
    rewrite H1 in H2. cbn [fst rev app] in H2.
    match type of H2 with
    | second = run L ?p r =>
        destruct (Hsteady p eq_refl) as (Hreg2 & _);
        destruct (Hsteady
                    (EvLog LInfo [FUint64 "topicId" topic]
                       "Reputer node already registered"
                     :: EvIsReputerRegistered topic (true, None) :: p) eq_refl)
          as (_ & stake2 & Hstake2 & Hmin2);
        rewrite (Hone p stake2 Hreg2 Hstake2 Hmin2) in H2
    end.
    rewrite H1, H2. repeat split.
Qed.

Lemma X6_reputer_steady_state_is_two_reads_witness :
  let L := Scenario.ledger Scenario.steady in
  let r := RegisterAndStakeReputerIdempotently Scenario.node Scenario.reputer in
  (calls (fst (run L [] r)) =
     [EvIsReputerRegistered 1 (true, None);
      EvGetReputerStakeInTopic 1 "allo1node" (100, None)] /\
   snd (run L [] r) = Returned true) /\
  (snd (run L (rev (fst (run L [] r))) r) = Returned true /\
   sent (fst (run L (rev (fst (run L [] r))) r)) = []).
Proof.
  pose proof (X6_reputer_steady_state_is_two_reads
                (Scenario.ledger Scenario.steady)
                Scenario.node Scenario.reputer) as [Hone Htwo].
  split.
  - apply (Hone [] 100); [reflexivity | reflexivity | cbn; lia].
  - assert (Hsteady : forall past : list Event, sent past = [] ->
      onIsReputerRegistered (Scenario.ledger Scenario.steady) past
        (TopicId Scenario.reputer) = (true, None) /\
      exists stake,
        onGetReputerStakeInTopic (Scenario.ledger Scenario.steady) past
          (TopicId Scenario.reputer) (ChainAddress (Chain Scenario.node))
          = (stake, None) /\
        MinStake Scenario.reputer <= stake).
    { intros past _. split.
      - cbn. destruct (Scenario.hasRegister past); reflexivity.
      - exists 100. split.
        + cbn. destruct (Scenario.hasAddStake past); reflexivity.
        + cbn. lia. }
    destruct (Htwo Hsteady) as (_ & Hret & _ & Hsent). split; assumption.
Defined.

(** X7. On the reputer path the stake is read only after a registration read
    has confirmed the identity registered, and a call that returns [true]
    has seen its latest registration read confirm it. *)
Theorem X7_stake_read_only_after_confirmed_registration
  (L : Ledger) (node : NodeConfig) (config : ReputerConfig) :
  let r := RegisterAndStakeReputerIdempotently node config in
  (forall pre,
     beforeStakeRead (trace L r) = Some pre ->
     lastReputerRead pre = Some (true, None)) /\
  (outcome L r = Returned true ->
     lastReputerRead (trace L r) = Some (true, None)).
Proof.
  intros r. subst r. unfold trace, outcome. split.
  - unfold RegisterAndStakeReputerIdempotently. split_on_answers; solve_leaf.
  - unfold RegisterAndStakeReputerIdempotently. split_on_answers; solve_leaf.
Qed.

Lemma X7_stake_read_only_after_confirmed_registration_witness :
  let L := Scenario.ledger Scenario.fresh in
  let r := RegisterAndStakeReputerIdempotently Scenario.node Scenario.reputer in
  lastReputerRead (firstn 6 (trace L r)) = Some (true, None) /\
  lastReputerRead (trace L r) = Some (true, None).
Proof.
  pose proof (X7_stake_read_only_after_confirmed_registration
                (Scenario.ledger Scenario.fresh)
                Scenario.node Scenario.reputer) as (Hpre & Htrue).
  split.
  - apply Hpre. reflexivity.
  - apply Htrue. reflexivity.
Defined.

(** X8. What a call logs at error level.  A call that returns [true] logs no
    error.  A reputer call that returns [false] logs exactly one error, as
    its last event.  A worker call that returns [false] does the same, but
    for one case: when the read that follows the Register submission
    succeeds and says "not registered", it returns [false] with no error
    logged at all. *)
Theorem X8_one_error_line_per_failed_call
  (L : Ledger) (node : NodeConfig) (wc : WorkerConfig) (rc : ReputerConfig) :
  let w := RegisterWorkerIdempotently node wc in
  let r := RegisterAndStakeReputerIdempotently node rc in
  (outcome L w = Returned true -> errorLogs (trace L w) = []) /\
  (outcome L r = Returned true -> errorLogs (trace L r) = []) /\
  (outcome L r = Returned false ->
     exists fields msg,
       lastEvent (trace L r) = Some (EvLog LError fields msg) /\
       errorLogs (trace L r) = [EvLog LError fields msg]) /\
  (outcome L w = Returned false ->
     (exists fields msg,
        lastEvent (trace L w) = Some (EvLog LError fields msg) /\
        errorLogs (trace L w) = [EvLog LError fields msg]) \/
     (lastEvent (trace L w) =
        Some (EvIsWorkerRegistered (WorkerTopicId wc) (false, None)) /\
      registers (trace L w) <> [] /\
      errorLogs (trace L w) = [])).
Proof.
  intros w r. subst w r. unfold trace, outcome, lastEvent, errorLogs.
  split; [| split; [| split]].
  - unfold RegisterWorkerIdempotently. split_on_answers; solve_leaf.
  - unfold RegisterAndStakeReputerIdempotently. split_on_answers; solve_leaf.
  - unfold RegisterAndStakeReputerIdempotently. split_on_answers; solve_leaf.
  - unfold RegisterWorkerIdempotently. split_on_answers; close_leaf.
    all: try (left; eexists; eexists; split; reflexivity).
    right. repeat split. discriminate.
Qed.

Lemma X8_one_error_line_per_failed_call_witness :
  let w := RegisterWorkerIdempotently Scenario.node Scenario.worker in
  let r := RegisterAndStakeReputerIdempotently Scenario.node Scenario.reputer in
  errorLogs (trace (Scenario.ledger Scenario.fresh) w) = [] /\
  errorLogs (trace (Scenario.ledger Scenario.fresh) r) = [] /\
  (exists fields msg,
     lastEvent (trace (Scenario.ledger Scenario.partial) r)
       = Some (EvLog LError fields msg) /\
     errorLogs (trace (Scenario.ledger Scenario.partial) r)
       = [EvLog LError fields msg]) /\
  ((exists fields msg,
      lastEvent (trace (Scenario.ledger Scenario.underfunded) w)
        = Some (EvLog LError fields msg) /\
      errorLogs (trace (Scenario.ledger Scenario.underfunded) w)
        = [EvLog LError fields msg]) \/
   (lastEvent (trace (Scenario.ledger Scenario.underfunded) w) =
      Some (EvIsWorkerRegistered (WorkerTopicId Scenario.worker) (false, None)) /\
    registers (trace (Scenario.ledger Scenario.underfunded) w) <> [] /\
    errorLogs (trace (Scenario.ledger Scenario.underfunded) w) = [])).
Proof.
  split; [| split; [| split]].
  - apply (X8_one_error_line_per_failed_call (Scenario.ledger Scenario.fresh)
             Scenario.node Scenario.worker Scenario.reputer). reflexivity.
  - apply (X8_one_error_line_per_failed_call (Scenario.ledger Scenario.fresh)
             Scenario.node Scenario.worker Scenario.reputer). reflexivity.
  - apply (X8_one_error_line_per_failed_call (Scenario.ledger Scenario.partial)
             Scenario.node Scenario.worker Scenario.reputer). reflexivity.
  - apply (X8_one_error_line_per_failed_call (Scenario.ledger Scenario.underfunded)
             Scenario.node Scenario.worker Scenario.reputer). reflexivity.
Defined.

(** X9. A call stays on its topic: every registration read, stake read and
    submitted message of a call names the configured [TopicId]. *)
Theorem X9_every_call_names_the_configured_topic
  (L : Ledger) (node : NodeConfig) (wc : WorkerConfig) (rc : ReputerConfig) :
  forallb (onTopic (WorkerTopicId wc))
    (trace L (RegisterWorkerIdempotently node wc)) = true /\
  forallb (onTopic (TopicId rc))
    (trace L (RegisterAndStakeReputerIdempotently node rc)) = true.
Proof.
  unfold trace. split.
  - unfold RegisterWorkerIdempotently.
    split_on_answers; cbn; rewrite ?N.eqb_refl; reflexivity.
  - unfold RegisterAndStakeReputerIdempotently.
    split_on_answers; cbn; rewrite ?N.eqb_refl; reflexivity.
Qed.

(** X10. What [true] means, both ways.  The worker path returns [true]
    exactly when its last ledger call is a registration read that succeeded
    with "registered"; the reputer path returns [true] exactly when its last
    ledger call is a stake read that succeeded with at least [MinStake]. *)
Theorem X10_true_exactly_when_last_read_shows_target
  (L : Ledger) (node : NodeConfig) (wc : WorkerConfig) (rc : ReputerConfig) :
  let w := RegisterWorkerIdempotently node wc in
  let r := RegisterAndStakeReputerIdempotently node rc in
  (outcome L w = Returned true <->
   lastCall (trace L w) =
     Some (EvIsWorkerRegistered (WorkerTopicId wc) (true, None))) /\
  (outcome L r = Returned true <->
   exists stake,
     lastCall (trace L r) =
       Some (EvGetReputerStakeInTopic (TopicId rc) (ChainAddress (Chain node))
               (stake, None)) /\
     MinStake rc <= stake).
Proof.
  intros w r. subst w r. unfold trace, outcome, lastCall. split; split.
  - unfold RegisterWorkerIdempotently. split_on_answers; solve_leaf.
  - unfold RegisterWorkerIdempotently. split_on_answers; solve_leaf.
  - unfold RegisterAndStakeReputerIdempotently. split_on_answers; solve_leaf.
  - unfold RegisterAndStakeReputerIdempotently. split_on_answers; close_leaf.
    all: try reflexivity.
    all: repeat match goal with
           | H : exists _, _ |- _ => destruct H
           | H : _ /\ _ |- _ => destruct H
           | H : Some _ = Some _ |- _ => inversion H; clear H; subst
           end.
    all: try discriminate; try solve [int_facts; lia].
Qed.

(** ** Entrypoint adapters: the three loops as one pass *)

Section AdapterLoops.

Variable Adapter : Type.
Variable New : AdapterFactory Adapter.

Ltac entry_cases name past :=
  unfold convertEntrypoint;
  destruct (String.eqb name "") eqn:?;
  [| destruct (New past name) as [? [?|]] eqn:?]; cbn.

(** The events and the error of one entrypoint do not depend on what the
    field held. *)
Lemma convertEntrypoint_any_field past name label field :
  let '(ev, _, err) := convertEntrypoint New past name label field in
  convertEntrypoint New past name label None = (ev, snd (fst (convertEntrypoint New past name label None)), err).
Proof.
  entry_cases name past; reflexivity.
Qed.

Lemma createAll_app (l1 l2 : list (string * string)) : forall past,
  createAll New past (l1 ++ l2) =
    let '(ev, err) := createAll New past l1 in
    match err with
    | Some e => (ev, Some e)
    | None =>
        let '(ev', err') := createAll New (andThen past ev) l2 in
        ((ev ++ ev')%list, err')
    end.
Proof.
  induction l1 as [| [name label] l1 IH]; intros past; cbn [createAll app].
  - unfold andThen. cbn. destruct (createAll New past l2). reflexivity.
  - destruct (convertEntrypoint New past name label None) as [[ev f] [e|]].
    + reflexivity.
    + rewrite IH.
      destruct (createAll New (andThen past ev) l1) as [ev1 [e1|]].
      * reflexivity.
      * unfold andThen. rewrite rev_app_distr, <- app_assoc.
        destruct (createAll New _ l2) as [ev2 err2].
        rewrite app_assoc. reflexivity.
Qed.

(** A loop whose body is a pass over the entrypoints of one element is a
    pass over the entrypoints of all of them. *)
Lemma forRange_createAll {X : Type}
  (body : list (SetupEvent Adapter) -> X ->
          list (SetupEvent Adapter) * X * option Error)
  (eps : X -> list (string * string)) :
  (forall past x,
     createAll New past (eps x) = (fst (fst (body past x)), snd (body past x))) ->
  forall xs past,
    createAll New past (flat_map eps xs) =
      (fst (fst (forRange body past xs)), snd (forRange body past xs)).
Proof.
  intros Hbody xs. induction xs as [| x xs IH]; intros past.
  - reflexivity.
  - cbn [flat_map forRange]. rewrite createAll_app, Hbody.
    destruct (body past x) as [[ev x'] [e|]]; cbn [fst snd].
    + reflexivity.
    + rewrite IH.
      destruct (forRange body (andThen past ev) xs) as [[ev' xs'] err'].
      reflexivity.
Qed.

Lemma workerBody_createAll past w :
  createAll New past
    [(InferenceEntrypointName w, "Error creating inference adapter:");
     (ForecastEntrypointName w, "Error creating forecast adapter:")] =
  (fst (fst (workerBody New past w)), snd (workerBody New past w)).
Proof.
  unfold workerBody. cbn [createAll].
  pose proof (convertEntrypoint_any_field past (InferenceEntrypointName w)
                "Error creating inference adapter:" (InferenceEntrypoint w)) as H1.
  destruct (convertEntrypoint New past (InferenceEntrypointName w) _
              (InferenceEntrypoint w)) as [[ev1 f1] err1].
  rewrite H1. destruct err1 as [e|]; [reflexivity |].
  pose proof (convertEntrypoint_any_field (andThen past ev1)
                (ForecastEntrypointName w)
                "Error creating forecast adapter:" (ForecastEntrypoint w)) as H2.
  destruct (convertEntrypoint New (andThen past ev1) (ForecastEntrypointName w) _
              (ForecastEntrypoint w)) as [[ev2 f2] err2].
  rewrite H2. destruct err2; cbn; rewrite ?app_nil_r; reflexivity.
Qed.

Lemma groundTruthBody_createAll past r :
  createAll New past
    [(GroundTruthEntrypointName r, "Error creating reputer adapter:")] =
  (fst (fst (groundTruthBody New past r)), snd (groundTruthBody New past r)).
Proof.
  unfold groundTruthBody. cbn [createAll].
  pose proof (convertEntrypoint_any_field past (GroundTruthEntrypointName r)
                "Error creating reputer adapter:" (GroundTruthEntrypoint r)) as H1.
  destruct (convertEntrypoint New past (GroundTruthEntrypointName r) _
              (GroundTruthEntrypoint r)) as [[ev1 f1] err1].
  rewrite H1. destruct err1; cbn; rewrite ?app_nil_r; reflexivity.
Qed.

Lemma lossFunctionBody_createAll past r :
  createAll New past
    [(LossFunctionEntrypointName r, "Error creating reputer adapter:")] =
  (fst (fst (lossFunctionBody New past r)), snd (lossFunctionBody New past r)).
Proof.
  unfold lossFunctionBody. cbn [createAll].
  pose proof (convertEntrypoint_any_field past (LossFunctionEntrypointName r)
                "Error creating reputer adapter:" (LossFunctionEntrypoint r)) as H1.
  destruct (convertEntrypoint New past (LossFunctionEntrypointName r) _
              (LossFunctionEntrypoint r)) as [[ev1 f1] err1].
  rewrite H1. destruct err1; cbn; rewrite ?app_nil_r; reflexivity.
Qed.

(** What a loop keeps: a relation the body keeps between an element and
    what it leaves in its place holds along the whole slice. *)
Lemma forRange_Forall2 {X : Type}
  (body : list (SetupEvent Adapter) -> X ->
          list (SetupEvent Adapter) * X * option Error)
  (R : X -> X -> Prop) :
  (forall x, R x x) ->
  (forall past x, R x (snd (fst (body past x)))) ->
  forall xs past, Forall2 R xs (snd (fst (forRange body past xs))).
Proof.
  intros Hrefl Hbody xs. induction xs as [| x xs IH]; intros past.
  - constructor.
  - cbn [forRange]. pose proof (Hbody past x) as Hx.
    destruct (body past x) as [[ev x'] [e|]]; cbn [fst snd] in *.
    + constructor; [assumption |].
      clear - Hrefl. induction xs; constructor; auto.
    + pose proof (IH (andThen past ev)) as Hrest.
      destruct (forRange body (andThen past ev) xs) as [[ev' xs'] err'].
      constructor; assumption.
Qed.

End AdapterLoops.

Section AdapterConversion.

Variable Adapter : Type.
Variable New : AdapterFactory Adapter.

Lemma andThen_app (past a b : list (SetupEvent Adapter)) :
  andThen past (a ++ b) = andThen (andThen past a) b.
Proof. unfold andThen. rewrite rev_app_distr, app_assoc. reflexivity. Qed.

Lemma Forall2_compose {X : Type} (R1 R2 R : X -> X -> Prop) :
  (forall a b c, R1 a b -> R2 b c -> R a c) ->
  forall l1 l2 l3, Forall2 R1 l1 l2 -> Forall2 R2 l2 l3 -> Forall2 R l1 l3.
Proof.
  intros Hstep l1 l2 l3 H12. revert l3.
  induction H12 as [| a b l1 l2 Hab _ IH]; intros l3 H23.
  - inversion H23. constructor.
  - inversion H23 as [| b' c l2' l3' Hbc Hrest]; subst.
    constructor; [eapply Hstep; eassumption | apply IH; assumption].
Qed.

Lemma Forall2_map_eq {X Y : Type} (f : X -> Y) (l l' : list X) :
  Forall2 (fun a b => f b = f a) l l' -> map f l' = map f l.
Proof.
  induction 1 as [| a b l l' Hab _ IH]; cbn; [reflexivity |].
  rewrite Hab, IH. reflexivity.
Qed.

Lemma flat_map_single {X Y : Type} (f : X -> Y) (l : list X) :
  flat_map (fun x => [f x]) l = map f l.
Proof. induction l as [| x l IH]; cbn; [| rewrite IH]; reflexivity. Qed.

Lemma convertEntrypoint_keeps past name label field :
  keepsUnnamed name field
    (snd (fst (convertEntrypoint New past name label field))).
Proof.
  intros Hname. subst name. reflexivity.
Qed.

Lemma workerBody_kept past w : workerKept w (snd (fst (workerBody New past w))).
Proof.
  unfold workerBody.
  pose proof (convertEntrypoint_keeps past (InferenceEntrypointName w)
                "Error creating inference adapter:" (InferenceEntrypoint w)) as H1.
  destruct (convertEntrypoint New past (InferenceEntrypointName w) _
              (InferenceEntrypoint w)) as [[ev1 f1] [e1|]]; cbn [fst snd] in *.
  - repeat split; cbn; auto; try (intros _; reflexivity).
  - pose proof (convertEntrypoint_keeps (andThen past ev1)
                  (ForecastEntrypointName w)
                  "Error creating forecast adapter:" (ForecastEntrypoint w)) as H2.
    destruct (convertEntrypoint New (andThen past ev1) (ForecastEntrypointName w) _
                (ForecastEntrypoint w)) as [[ev2 f2] err2]; cbn [fst snd] in *.
    repeat split; cbn; auto.
Qed.

Lemma groundTruthBody_kept past r :
  reputerKept r (snd (fst (groundTruthBody New past r))) /\
  LossFunctionEntrypoint (snd (fst (groundTruthBody New past r)))
    = LossFunctionEntrypoint r.
Proof.
  unfold groundTruthBody.
  pose proof (convertEntrypoint_keeps past (GroundTruthEntrypointName r)
                "Error creating reputer adapter:" (GroundTruthEntrypoint r)) as H1.
  destruct (convertEntrypoint New past (GroundTruthEntrypointName r) _
              (GroundTruthEntrypoint r)) as [[ev1 f1] err1]; cbn [fst snd] in *.
  repeat split; cbn; auto; try (intros _; reflexivity).
Qed.

Lemma lossFunctionBody_kept past r :
  reputerKept r (snd (fst (lossFunctionBody New past r))) /\
  GroundTruthEntrypoint (snd (fst (lossFunctionBody New past r)))
    = GroundTruthEntrypoint r.
Proof.
  unfold lossFunctionBody.
  pose proof (convertEntrypoint_keeps past (LossFunctionEntrypointName r)
                "Error creating reputer adapter:" (LossFunctionEntrypoint r)) as H1.
  destruct (convertEntrypoint New past (LossFunctionEntrypointName r) _
              (LossFunctionEntrypoint r)) as [[ev1 f1] err1]; cbn [fst snd] in *.
  repeat split; cbn; auto; try (intros _; reflexivity).
Qed.

Lemma reputerKept_refl (r : UserReputer Adapter) : reputerKept r r.
Proof. repeat split; intros _; reflexivity. Qed.

Lemma reputerKept_trans (a b c : UserReputer Adapter) :
  reputerKept a b -> reputerKept b c -> reputerKept a c.
Proof.
  intros ((Hb1 & Hb2 & Hb3) & Hg1 & Hl1) ((Hc1 & Hc2 & Hc3) & Hg2 & Hl2).
  repeat split; try congruence.
  - intros Hn. rewrite Hg2, Hg1; congruence.
  - intros Hn. rewrite Hl2, Hl1; congruence.
Qed.

(** The three loops together keep what each of them keeps. *)
Lemma ConvertEntrypointsToInstances_kept
  (past : list (SetupEvent Adapter)) (c c' : UserConfig Adapter)
  (tr : list (SetupEvent Adapter)) (err : option Error) :
  ConvertEntrypointsToInstances New past c = (tr, c', err) ->
  Forall2 workerKept (Worker c) (Worker c') /\
  Forall2 reputerKept (Reputer c) (Reputer c').
Proof.
  unfold ConvertEntrypointsToInstances.
  pose proof (forRange_Forall2 Adapter (workerBody New) workerKept
                (fun w => conj (conj eq_refl (conj eq_refl eq_refl))
                            (conj (fun _ => eq_refl) (fun _ => eq_refl)))
                (fun p w => workerBody_kept p w) (Worker c) past) as Hw.
  destruct (forRange (workerBody New) past (Worker c)) as [[ev1 ws] [e1|]];
    cbn [fst snd] in Hw.
  - intros H. injection H as _ <- _. cbn. split; [assumption |].
    clear. induction (Reputer c); constructor; auto using reputerKept_refl.
  - pose proof (forRange_Forall2 Adapter (groundTruthBody New) reputerKept
                  reputerKept_refl
                  (fun p r => proj1 (groundTruthBody_kept p r))
                  (Reputer c) (andThen past ev1)) as Hg.
    destruct (forRange (groundTruthBody New) (andThen past ev1) (Reputer c))
      as [[ev2 rs] [e2|]]; cbn [fst snd] in Hg.
    + intros H. injection H as _ <- _. cbn. split; assumption.
    + pose proof (forRange_Forall2 Adapter (lossFunctionBody New) reputerKept
                    reputerKept_refl
                    (fun p r => proj1 (lossFunctionBody_kept p r))
                    rs (andThen past (ev1 ++ ev2))) as Hl.
      destruct (forRange (lossFunctionBody New) (andThen past (ev1 ++ ev2)) rs)
        as [[ev3 rs'] err3]; cbn [fst snd] in Hl.
      intros H. injection H as _ <- _. cbn. split; [assumption |].
      exact (Forall2_compose reputerKept reputerKept reputerKept
               reputerKept_trans _ _ _ Hg Hl).
Qed.

(** X11. The conversion touches entrypoints only, and named ones only:
    whether it returns an error or not, the configuration afterwards has the
    same workers and reputers in the same order, with the same topic, stake
    and entrypoint names, and every entrypoint without a name holds what it
    held. *)
Theorem X11_conversion_writes_named_entrypoints_only
  (past : list (SetupEvent Adapter)) (c c' : UserConfig Adapter)
  (tr : list (SetupEvent Adapter)) (err : option Error) :
  ConvertEntrypointsToInstances New past c = (tr, c', err) ->
  Forall2 workerKept (Worker c) (Worker c') /\
  Forall2 reputerKept (Reputer c) (Reputer c').
Proof.
  intros H. split.
  - apply (ConvertEntrypointsToInstances_kept past c c' tr err H).
  - apply (ConvertEntrypointsToInstances_kept past c c' tr err H).
Qed.

End AdapterConversion.

Section AdapterPass.

Variable Adapter : Type.
Variable New : AdapterFactory Adapter.

(** The three loops make the same calls and return the same error as one
    pass over the entrypoints, workers first (inference, then forecast, of
    each), then every ground truth, then every loss function. *)
Lemma ConvertEntrypointsToInstances_createAll past (c : UserConfig Adapter) :
  createAll New past (entrypoints c) =
    (fst (fst (ConvertEntrypointsToInstances New past c)),
     snd (ConvertEntrypointsToInstances New past c)).
Proof.
  unfold entrypoints, ConvertEntrypointsToInstances.
  rewrite createAll_app.
  rewrite (forRange_createAll Adapter New (workerBody New) _
             (workerBody_createAll Adapter New)).
  destruct (forRange (workerBody New) past (Worker c)) as [[ev1 ws] [e1|]];
    cbn [fst snd]; [reflexivity |].
  rewrite createAll_app.
  rewrite <- (flat_map_single
                (fun r : UserReputer Adapter =>
                   (GroundTruthEntrypointName r, "Error creating reputer adapter:"))).
  rewrite (forRange_createAll Adapter New (groundTruthBody New) _
             (groundTruthBody_createAll Adapter New)).
  pose proof (forRange_Forall2 Adapter (groundTruthBody New)
                (fun r r' => LossFunctionEntrypointName r' = LossFunctionEntrypointName r)
                (fun r => eq_refl)
                (fun p r => proj2 (proj2 (proj1 (proj1
                   (groundTruthBody_kept Adapter New p r)))))
                (Reputer c) (andThen past ev1)) as Hnames.
  destruct (forRange (groundTruthBody New) (andThen past ev1) (Reputer c))
    as [[ev2 rs] [e2|]]; cbn [fst snd] in *; [reflexivity |].
  replace (map (fun r : UserReputer Adapter =>
                  (LossFunctionEntrypointName r, "Error creating reputer adapter:"))
             (Reputer c))
    with (flat_map (fun r : UserReputer Adapter =>
                  [(LossFunctionEntrypointName r, "Error creating reputer adapter:")])
             rs).
  - rewrite (forRange_createAll Adapter New (lossFunctionBody New) _
               (lossFunctionBody_createAll Adapter New)).
    rewrite <- andThen_app.
    destruct (forRange (lossFunctionBody New) (andThen past (ev1 ++ ev2)) rs)
      as [[ev3 rs'] err3]; cbn [fst snd].
    reflexivity.
  - rewrite flat_map_single.
    rewrite <- (map_map LossFunctionEntrypointName
                  (fun n => (n, "Error creating reputer adapter:")) rs).
    rewrite <- (map_map LossFunctionEntrypointName
                  (fun n => (n, "Error creating reputer adapter:")) (Reputer c)).
    f_equal. apply (Forall2_map_eq LossFunctionEntrypointName). assumption.
Qed.

Lemma wanted_entrypoints (c : UserConfig Adapter) :
  wanted c = filter named (map fst (entrypoints c)).
Proof.
  unfold wanted, entrypoints. f_equal.
  rewrite !map_app, !map_map. cbn [fst]. f_equal.
  induction (Worker c) as [| w ws IH]; cbn; [| rewrite IH]; reflexivity.
Qed.

(** One pass asks for the named entrypoints in order, all of them when it
    returns no error. *)
Lemma createAll_requested (l : list (string * string)) : forall past,
  exists rest,
    filter named (map fst l) = (requested (fst (createAll New past l)) ++ rest)%list /\
    (snd (createAll New past l) = None -> rest = []).
Proof.
  induction l as [| [name label] l IH]; intros past.
  - exists []. split; reflexivity.
  - cbn [createAll map fst filter]. unfold named at 1, convertEntrypoint.
    destruct (String.eqb name "") eqn:Hname; cbn [negb].
    + destruct (IH (andThen past [])) as (rest & Hreq & Hnone).
      destruct (createAll New (andThen past []) l) as [ev' err'].
      exists rest. split; assumption.
    + destruct (New past name) as [a [e|]]; cbn [snd fst].
      * exists (filter named (map fst l)). split; [reflexivity | discriminate].
      * destruct (IH (andThen past [EvNewAlloraAdapter name (a, None)]))
          as (rest & Hreq & Hnone).
        destruct (createAll New _ l) as [ev' err'].
        exists rest. cbn in *. split; [rewrite Hreq; reflexivity | assumption].
Qed.

(** One pass stops at the first adapter that cannot be made: the failure is
    printed, returned, and the last thing that happens. *)
Lemma createAll_failures (l : list (string * string)) : forall past,
  let '(ev, err) := createAll New past l in
  match err with
  | None => failures ev = [] /\ printed ev = []
  | Some e =>
      exists pre name a label,
        ev = (pre ++ [EvNewAlloraAdapter name (a, Some e); EvPrintln label e])%list /\
        failures pre = [] /\ printed pre = [] /\ name <> ""
  end.
Proof.
  induction l as [| [name label] l IH]; intros past.
  - cbn. split; reflexivity.
  - cbn [createAll]. unfold convertEntrypoint.
    destruct (String.eqb name "") eqn:Hname.
    + specialize (IH (andThen past [])).
      destruct (createAll New (andThen past []) l) as [ev' err']. exact IH.
    + assert (Hne : name <> "") by (intros ->; discriminate Hname).
      destruct (New past name) as [a [e|]]; cbn [snd fst].
      * exists [], name, a, label. repeat split; assumption.
      * specialize (IH (andThen past [EvNewAlloraAdapter name (a, None)])).
        destruct (createAll New _ l) as [ev' [e'|]].
        -- destruct IH as (pre & n & a' & lbl & Hev & Hf & Hp & Hn).
           exists (EvNewAlloraAdapter name (a, None) :: pre), n, a', lbl.
           subst ev'. repeat split; cbn; assumption.
        -- cbn. exact IH.
Qed.

(** X12. Adapters are asked for in the order of the three loops: the names
    handed to [NewAlloraAdapter] are an initial part of the named
    entrypoints, taken worker by worker (inference, then forecast), then the
    ground truth of every reputer, then the loss function of every reputer;
    when no error is returned they are all of them, so each named entrypoint
    costs exactly one call. *)
Theorem X12_adapters_requested_in_loop_order
  (past : list (SetupEvent Adapter)) (c c' : UserConfig Adapter)
  (tr : list (SetupEvent Adapter)) (err : option Error) :
  ConvertEntrypointsToInstances New past c = (tr, c', err) ->
  exists rest,
    wanted c = (requested tr ++ rest)%list /\ (err = None -> rest = []).
Proof.
  intros H.
  pose proof (ConvertEntrypointsToInstances_createAll past c) as Hpass.
  rewrite H in Hpass. cbn [fst snd] in Hpass.
  destruct (createAll_requested (entrypoints c) past) as (rest & Hreq & Hnone).
  rewrite Hpass in Hreq, Hnone. cbn [fst snd] in Hreq, Hnone.
  exists rest. rewrite wanted_entrypoints. split; assumption.
Qed.

(** X13. The conversion stops at the first adapter that cannot be made.
    When it returns no error, no call failed and nothing was printed.  When
    it returns an error, that error is the answer of the last call, which
    was for a named entrypoint; it is printed once, right after; every
    earlier call succeeded. *)
Theorem X13_conversion_stops_at_first_failure
  (past : list (SetupEvent Adapter)) (c c' : UserConfig Adapter)
  (tr : list (SetupEvent Adapter)) (err : option Error) :
  ConvertEntrypointsToInstances New past c = (tr, c', err) ->
  match err with
  | None => failures tr = [] /\ printed tr = []
  | Some e =>
      exists pre name a label,
        tr = (pre ++ [EvNewAlloraAdapter name (a, Some e); EvPrintln label e])%list /\
        failures pre = [] /\ printed pre = [] /\ name <> ""
  end.
Proof.
  intros H.
  pose proof (ConvertEntrypointsToInstances_createAll past c) as Hpass.
  rewrite H in Hpass. cbn [fst snd] in Hpass.
  pose proof (createAll_failures (entrypoints c) past) as Hfail.
  rewrite Hpass in Hfail. exact Hfail.
Qed.

End AdapterPass.

Section AdapterStateless.

Variable Adapter : Type.
Variable New : AdapterFactory Adapter.
Hypothesis New_stateless : stateless New.

Lemma createAll_accepts (l : list (string * string)) : forall past,
  snd (createAll New past l) = None <->
  Forall (accepts New) (filter named (map fst l)).
Proof.
  induction l as [| [name label] l IH]; intros past.
  - cbn. split; [constructor | reflexivity].
  - cbn [createAll map fst filter]. unfold named at 1, convertEntrypoint.
    destruct (String.eqb name "") eqn:Hname; cbn [negb].
    + specialize (IH (andThen past [])).
      destruct (createAll New (andThen past []) l) as [ev' err']. exact IH.
    + pose proof (New_stateless past [] name) as Hsame.
      unfold accepts at 1.
      destruct (New past name) as [a [e|]] eqn:Hnew; cbn [snd fst].
      * split; [discriminate |].
        intros Hall. inversion Hall as [| ? ? Hacc _]; subst.
        unfold accepts in Hacc. rewrite <- Hsame in Hacc. discriminate Hacc.
      * specialize (IH (andThen past [EvNewAlloraAdapter name (a, None)])).
        destruct (createAll New _ l) as [ev' err']. cbn [snd] in *.
        rewrite IH. split.
        -- intros Hall. constructor; [| assumption].
           unfold accepts. rewrite <- Hsame. reflexivity.
        -- intros Hall. inversion Hall; assumption.
Qed.

Lemma convertEntrypoint_adapterFor past name label field :
  snd (convertEntrypoint New past name label field) = None ->
  snd (fst (convertEntrypoint New past name label field))
    = adapterFor New name field.
Proof.
  unfold convertEntrypoint, adapterFor.
  destruct (String.eqb name ""); [reflexivity |].
  rewrite (New_stateless past [] name).
  destruct (New [] name) as [a [e|]]; cbn; [discriminate | reflexivity].
Qed.

(** A loop that returns no error has applied its body to every element. *)
Lemma forRange_map {X : Type}
  (body : list (SetupEvent Adapter) -> X ->
          list (SetupEvent Adapter) * X * option Error)
  (f : X -> X) :
  (forall past x, snd (body past x) = None -> snd (fst (body past x)) = f x) ->
  forall xs past,
    snd (forRange body past xs) = None ->
    snd (fst (forRange body past xs)) = map f xs.
Proof.
  intros Hbody xs. induction xs as [| x xs IH]; intros past.
  - reflexivity.
  - cbn [forRange map]. pose proof (Hbody past x) as Hx.
    destruct (body past x) as [[ev x'] [e|]]; cbn [fst snd] in *.
    + discriminate.
    + specialize (IH (andThen past ev)).
      destruct (forRange body (andThen past ev) xs) as [[ev' xs'] err'].
      cbn [fst snd] in *. intros Herr.
      rewrite (Hx eq_refl), (IH Herr). reflexivity.
Qed.

Lemma workerBody_made past w :
  snd (workerBody New past w) = None ->
  snd (fst (workerBody New past w)) = madeWorker New w.
Proof.
  unfold workerBody, madeWorker.
  pose proof (convertEntrypoint_adapterFor past (InferenceEntrypointName w)
                "Error creating inference adapter:" (InferenceEntrypoint w)) as H1.
  destruct (convertEntrypoint New past (InferenceEntrypointName w) _
              (InferenceEntrypoint w)) as [[ev1 f1] [e1|]]; cbn [fst snd] in *.
  - discriminate.
  - pose proof (convertEntrypoint_adapterFor (andThen past ev1)
                  (ForecastEntrypointName w)
                  "Error creating forecast adapter:" (ForecastEntrypoint w)) as H2.
    destruct (convertEntrypoint New (andThen past ev1) (ForecastEntrypointName w) _
                (ForecastEntrypoint w)) as [[ev2 f2] err2]; cbn [fst snd] in *.
    intros Herr. rewrite (H1 eq_refl), (H2 Herr). reflexivity.
Qed.

Lemma groundTruthBody_made past r :
  snd (groundTruthBody New past r) = None ->
  snd (fst (groundTruthBody New past r)) =
    {| ReputerOf := ReputerOf r;
       GroundTruthEntrypointName := GroundTruthEntrypointName r;
       GroundTruthEntrypoint :=
         adapterFor New (GroundTruthEntrypointName r) (GroundTruthEntrypoint r);
       LossFunctionEntrypointName := LossFunctionEntrypointName r;
       LossFunctionEntrypoint := LossFunctionEntrypoint r |}.
Proof.
  unfold groundTruthBody.
  pose proof (convertEntrypoint_adapterFor past (GroundTruthEntrypointName r)
                "Error creating reputer adapter:" (GroundTruthEntrypoint r)) as H1.
  destruct (convertEntrypoint New past (GroundTruthEntrypointName r) _
              (GroundTruthEntrypoint r)) as [[ev1 f1] err1]; cbn [fst snd] in *.
  intros Herr. rewrite (H1 Herr). reflexivity.
Qed.

Lemma lossFunctionBody_made past r :
  snd (lossFunctionBody New past r) = None ->
  snd (fst (lossFunctionBody New past r)) =
    {| ReputerOf := ReputerOf r;
       GroundTruthEntrypointName := GroundTruthEntrypointName r;
       GroundTruthEntrypoint := GroundTruthEntrypoint r;
       LossFunctionEntrypointName := LossFunctionEntrypointName r;
       LossFunctionEntrypoint :=
         adapterFor New (LossFunctionEntrypointName r) (LossFunctionEntrypoint r) |}.
Proof.
  unfold lossFunctionBody.
  pose proof (convertEntrypoint_adapterFor past (LossFunctionEntrypointName r)
                "Error creating reputer adapter:" (LossFunctionEntrypoint r)) as H1.
  destruct (convertEntrypoint New past (LossFunctionEntrypointName r) _
              (LossFunctionEntrypoint r)) as [[ev1 f1] err1]; cbn [fst snd] in *.
  intros Herr. rewrite (H1 Herr). reflexivity.
Qed.

(** With a stateless factory, a conversion that returns no error leaves in
    every named entrypoint the adapter the factory makes for its name. *)
Lemma ConvertEntrypointsToInstances_made past (c c' : UserConfig Adapter) tr :
  ConvertEntrypointsToInstances New past c = (tr, c', None) ->
  c' = madeConfig New c.
Proof.
  unfold ConvertEntrypointsToInstances, madeConfig.
  pose proof (forRange_map (workerBody New) (madeWorker New) workerBody_made
                (Worker c) past) as Hw.
  destruct (forRange (workerBody New) past (Worker c)) as [[ev1 ws] [e1|]];
    cbn [fst snd] in Hw; [discriminate |].
  pose proof (forRange_map (groundTruthBody New) _ groundTruthBody_made
                (Reputer c) (andThen past ev1)) as Hg.
  destruct (forRange (groundTruthBody New) (andThen past ev1) (Reputer c))
    as [[ev2 rs] [e2|]]; cbn [fst snd] in Hg; [discriminate |].
  pose proof (forRange_map (lossFunctionBody New) _ lossFunctionBody_made
                rs (andThen past (ev1 ++ ev2))) as Hl.
  destruct (forRange (lossFunctionBody New) (andThen past (ev1 ++ ev2)) rs)
    as [[ev3 rs'] err3]; cbn [fst snd] in Hl.
  intros H. injection H as _ <- Herr.
  rewrite (Hw eq_refl), (Hl Herr), (Hg eq_refl), map_map. reflexivity.
Qed.

Lemma adapterFor_twice name (field : option Adapter) :
  adapterFor New name (adapterFor New name field) = adapterFor New name field.
Proof. unfold adapterFor. destruct (String.eqb name ""); reflexivity. Qed.

Lemma madeConfig_twice (c : UserConfig Adapter) :
  madeConfig New (madeConfig New c) = madeConfig New c.
Proof.
  unfold madeConfig. cbn. rewrite !map_map. f_equal.
  - apply map_ext. intros w. unfold madeWorker. cbn.
    rewrite !adapterFor_twice. reflexivity.
  - apply map_ext. intros r. unfold madeReputer. cbn.
    rewrite !adapterFor_twice. reflexivity.
Qed.

Lemma wanted_madeConfig (c : UserConfig Adapter) :
  wanted (madeConfig New c) = wanted c.
Proof.
  unfold wanted, madeConfig. cbn. rewrite !map_map. cbn. f_equal. f_equal.
  induction (Worker c) as [| w ws IH]; cbn; [| rewrite IH]; reflexivity.
Qed.

(** X14. With a factory whose answer depends on the name alone, the
    conversion returns no error exactly when the factory makes an adapter
    for every named entrypoint of the configuration. *)
Theorem X14_conversion_succeeds_iff_every_name_accepted
  (past : list (SetupEvent Adapter)) (c c' : UserConfig Adapter)
  (tr : list (SetupEvent Adapter)) (err : option Error) :
  ConvertEntrypointsToInstances New past c = (tr, c', err) ->
  (err = None <-> Forall (accepts New) (wanted c)).
Proof.
  intros H.
  pose proof (ConvertEntrypointsToInstances_createAll Adapter New past c) as Hpass.
  rewrite H in Hpass. cbn [fst snd] in Hpass.
  pose proof (createAll_accepts (entrypoints c) past) as Hacc.
  rewrite Hpass in Hacc. cbn [snd] in Hacc.
  rewrite (wanted_entrypoints Adapter c). exact Hacc.
Qed.

(** X15. With such a factory, a conversion that returns no error leaves in
    every named entrypoint the adapter the factory makes for its name; and
    converting the result again returns no error, changes nothing, and asks
    the factory for every adapter once more. *)
Theorem X15_converting_again_changes_nothing
  (past past' : list (SetupEvent Adapter)) (c c' : UserConfig Adapter)
  (tr : list (SetupEvent Adapter)) :
  ConvertEntrypointsToInstances New past c = (tr, c', None) ->
  c' = madeConfig New c /\
  exists tr',
    ConvertEntrypointsToInstances New past' c' = (tr', c', None) /\
    requested tr' = requested tr.
Proof.
  intros H.
  pose proof (ConvertEntrypointsToInstances_made past c c' tr H) as Hmade.
  split; [assumption |].
  destruct (ConvertEntrypointsToInstances New past' c') as [[tr' c''] err'] eqn:H'.
  assert (Hacc : Forall (accepts New) (wanted c)).
  { pose proof (ConvertEntrypointsToInstances_createAll Adapter New past c) as Hp.
    rewrite H in Hp. cbn [fst snd] in Hp.
    pose proof (createAll_accepts (entrypoints c) past) as Ha.
    rewrite Hp in Ha. rewrite (wanted_entrypoints Adapter c). apply Ha. reflexivity. }
  assert (Herr : err' = None).
  { pose proof (ConvertEntrypointsToInstances_createAll Adapter New past' c') as Hp.
    rewrite H' in Hp. cbn [fst snd] in Hp.
    pose proof (createAll_accepts (entrypoints c') past') as Ha.
    rewrite Hp in Ha. apply Ha.
    rewrite <- (wanted_entrypoints Adapter c'), Hmade, wanted_madeConfig.
    assumption. }
  subst err'.
  pose proof (ConvertEntrypointsToInstances_made past' c' c'' tr' H') as Hmade'.
  assert (Hsame : c'' = c')
    by (rewrite Hmade', Hmade at 1; rewrite madeConfig_twice; symmetry; exact Hmade).
  exists tr'. split; [rewrite Hsame; reflexivity |].
  pose proof (ConvertEntrypointsToInstances_createAll Adapter New past c) as Hp.
  pose proof (ConvertEntrypointsToInstances_createAll Adapter New past' c') as Hp'.
  rewrite H in Hp. rewrite H' in Hp'. cbn [fst snd] in Hp, Hp'.
  destruct (createAll_requested Adapter New (entrypoints c) past) as (rest & Hr & Hn).
  destruct (createAll_requested Adapter New (entrypoints c') past')
    as (rest' & Hr' & Hn').
  rewrite Hp in Hr, Hn. rewrite Hp' in Hr', Hn'. cbn [fst snd] in *.
  rewrite (Hn eq_refl), app_nil_r in Hr.
  rewrite (Hn' eq_refl), app_nil_r in Hr'.
  rewrite <- Hr, <- Hr', <- !(wanted_entrypoints Adapter), Hmade, wanted_madeConfig.
  reflexivity.
Qed.

End AdapterStateless.

Section AdapterResult.

Variable Adapter : Type.
Variable New : AdapterFactory Adapter.

Lemma converted_incl (tr tr' : list (SetupEvent Adapter)) name before after :
  incl tr tr' -> converted tr name before after -> converted tr' name before after.
Proof.
  unfold converted. destruct (String.eqb name ""); [auto |].
  intros Hincl Hin. apply Hincl. assumption.
Qed.

Lemma convertEntrypoint_converted past name label field :
  snd (convertEntrypoint New past name label field) = None ->
  converted (fst (fst (convertEntrypoint New past name label field))) name field
    (snd (fst (convertEntrypoint New past name label field))).
Proof.
  unfold convertEntrypoint, converted.
  destruct (String.eqb name ""); [reflexivity |].
  destruct (New past name) as [a [e|]]; cbn; [discriminate | auto].
Qed.

(** A relation that the body of a loop establishes from its own events, and
    that more events do not break, holds along the whole slice once the loop
    returns no error. *)
Lemma forRange_Forall2_events {X : Type}
  (body : list (SetupEvent Adapter) -> X ->
          list (SetupEvent Adapter) * X * option Error)
  (R : list (SetupEvent Adapter) -> X -> X -> Prop) :
  (forall ev ev' x x', incl ev ev' -> R ev x x' -> R ev' x x') ->
  (forall past x,
     snd (body past x) = None ->
     R (fst (fst (body past x))) x (snd (fst (body past x)))) ->
  forall xs past,
    snd (forRange body past xs) = None ->
    Forall2 (R (fst (fst (forRange body past xs)))) xs
      (snd (fst (forRange body past xs))).
Proof.
  intros Hmono Hbody xs. induction xs as [| x xs IH]; intros past.
  - constructor.
  - cbn [forRange]. pose proof (Hbody past x) as Hx.
    destruct (body past x) as [[ev x'] [e|]]; cbn [fst snd] in *.
    + discriminate.
    + specialize (IH (andThen past ev)).
      destruct (forRange body (andThen past ev) xs) as [[ev' xs'] err'].
      cbn [fst snd] in *. intros Herr. constructor.
      * apply (Hmono ev); [apply incl_appl, incl_refl | auto].
      * eapply Forall2_impl; [| apply IH; assumption].
        intros a b. apply Hmono. apply incl_appr, incl_refl.
Qed.

(** X16. Whatever the factory, when the conversion returns no error every
    named entrypoint holds the adapter that a successful call of this run
    answered for its name, and every other entrypoint is as it was. *)
Theorem X16_success_sets_every_named_entrypoint
  (past : list (SetupEvent Adapter)) (c c' : UserConfig Adapter)
  (tr : list (SetupEvent Adapter)) :
  ConvertEntrypointsToInstances New past c = (tr, c', None) ->
  Forall2
    (fun w w' =>
       converted tr (InferenceEntrypointName w)
         (InferenceEntrypoint w) (InferenceEntrypoint w') /\
       converted tr (ForecastEntrypointName w)
         (ForecastEntrypoint w) (ForecastEntrypoint w'))
    (Worker c) (Worker c') /\
  Forall2
    (fun r r' =>
       converted tr (GroundTruthEntrypointName r)
         (GroundTruthEntrypoint r) (GroundTruthEntrypoint r') /\
       converted tr (LossFunctionEntrypointName r)
         (LossFunctionEntrypoint r) (LossFunctionEntrypoint r'))
    (Reputer c) (Reputer c').
Proof.
  unfold ConvertEntrypointsToInstances.
  pose proof (forRange_Forall2_events (workerBody New)
    (fun ev w w' =>
       converted ev (InferenceEntrypointName w)
         (InferenceEntrypoint w) (InferenceEntrypoint w') /\
       converted ev (ForecastEntrypointName w)
         (ForecastEntrypoint w) (ForecastEntrypoint w'))) as Hw.
  specialize (Hw
    (fun ev ev' w w' Hincl H =>
       conj (converted_incl _ _ _ _ _ Hincl (proj1 H))
            (converted_incl _ _ _ _ _ Hincl (proj2 H)))).
  assert (Hwb : forall past0 w,
    snd (workerBody New past0 w) = None ->
    converted (fst (fst (workerBody New past0 w))) (InferenceEntrypointName w)
      (InferenceEntrypoint w)
      (InferenceEntrypoint (snd (fst (workerBody New past0 w)))) /\
    converted (fst (fst (workerBody New past0 w))) (ForecastEntrypointName w)
      (ForecastEntrypoint w)
      (ForecastEntrypoint (snd (fst (workerBody New past0 w))))).
  { intros past0 w. unfold workerBody.
    pose proof (convertEntrypoint_converted past0 (InferenceEntrypointName w)
                  "Error creating inference adapter:" (InferenceEntrypoint w)) as H1.
    destruct (convertEntrypoint New past0 (InferenceEntrypointName w) _
                (InferenceEntrypoint w)) as [[ev1 f1] [e1|]]; cbn [fst snd] in *;
      [discriminate |].
    pose proof (convertEntrypoint_converted (andThen past0 ev1)
                  (ForecastEntrypointName w)
                  "Error creating forecast adapter:" (ForecastEntrypoint w)) as H2.
    destruct (convertEntrypoint New (andThen past0 ev1) (ForecastEntrypointName w) _
                (ForecastEntrypoint w)) as [[ev2 f2] err2]; cbn [fst snd] in *.
    intros Herr. split.
    - apply (converted_incl ev1); [apply incl_appl, incl_refl | auto].
    - apply (converted_incl ev2); [apply incl_appr, incl_refl | auto]. }
  specialize (Hw Hwb (Worker c) past). clear Hwb.
  destruct (forRange (workerBody New) past (Worker c)) as [[ev1 ws] [e1|]];
    cbn [fst snd] in Hw; [discriminate |].
  pose proof (forRange_Forall2_events (groundTruthBody New)
    (fun ev r r' =>
       converted ev (GroundTruthEntrypointName r)
         (GroundTruthEntrypoint r) (GroundTruthEntrypoint r') /\
       LossFunctionEntrypointName r' = LossFunctionEntrypointName r /\
       LossFunctionEntrypoint r' = LossFunctionEntrypoint r)) as Hg.
  specialize (Hg
    (fun ev ev' r r' Hincl H =>
       conj (converted_incl _ _ _ _ _ Hincl (proj1 H)) (proj2 H))).
  assert (Hgb : forall past0 r,
    snd (groundTruthBody New past0 r) = None ->
    converted (fst (fst (groundTruthBody New past0 r))) (GroundTruthEntrypointName r)
      (GroundTruthEntrypoint r)
      (GroundTruthEntrypoint (snd (fst (groundTruthBody New past0 r)))) /\
    LossFunctionEntrypointName (snd (fst (groundTruthBody New past0 r)))
      = LossFunctionEntrypointName r /\
    LossFunctionEntrypoint (snd (fst (groundTruthBody New past0 r)))
      = LossFunctionEntrypoint r).
  { intros past0 r. unfold groundTruthBody.
    pose proof (convertEntrypoint_converted past0 (GroundTruthEntrypointName r)
                  "Error creating reputer adapter:" (GroundTruthEntrypoint r)) as H1.
    destruct (convertEntrypoint New past0 (GroundTruthEntrypointName r) _
                (GroundTruthEntrypoint r)) as [[ev1' f1] err1]; cbn [fst snd] in *.
    intros Herr. repeat split. auto. }
  specialize (Hg Hgb (Reputer c) (andThen past ev1)). clear Hgb.
  destruct (forRange (groundTruthBody New) (andThen past ev1) (Reputer c))
    as [[ev2 rs] [e2|]]; cbn [fst snd] in Hg; [discriminate |].
  pose proof (forRange_Forall2_events (lossFunctionBody New)
    (fun ev r r' =>
       converted ev (LossFunctionEntrypointName r)
         (LossFunctionEntrypoint r) (LossFunctionEntrypoint r') /\
       GroundTruthEntrypoint r' = GroundTruthEntrypoint r)) as Hl.
  specialize (Hl
    (fun ev ev' r r' Hincl H =>
       conj (converted_incl _ _ _ _ _ Hincl (proj1 H)) (proj2 H))).
  assert (Hlb : forall past0 r,
    snd (lossFunctionBody New past0 r) = None ->
    converted (fst (fst (lossFunctionBody New past0 r))) (LossFunctionEntrypointName r)
      (LossFunctionEntrypoint r)
      (LossFunctionEntrypoint (snd (fst (lossFunctionBody New past0 r)))) /\
    GroundTruthEntrypoint (snd (fst (lossFunctionBody New past0 r)))
      = GroundTruthEntrypoint r).
  { intros past0 r. unfold lossFunctionBody.
    pose proof (convertEntrypoint_converted past0 (LossFunctionEntrypointName r)
                  "Error creating reputer adapter:" (LossFunctionEntrypoint r)) as H1.
    destruct (convertEntrypoint New past0 (LossFunctionEntrypointName r) _
                (LossFunctionEntrypoint r)) as [[ev1' f1] err1]; cbn [fst snd] in *.
    intros Herr. split; auto. }
  specialize (Hl Hlb rs (andThen past (ev1 ++ ev2))). clear Hlb.
  destruct (forRange (lossFunctionBody New) (andThen past (ev1 ++ ev2)) rs)
    as [[ev3 rs'] err3]; cbn [fst snd] in Hl.
  intros H. injection H as <- <- ->. cbn [Worker Reputer]. split.
  - eapply Forall2_impl; [| apply Hw; reflexivity].
    intros w w' [Hi Hf].
    split; eapply converted_incl; try eassumption; apply incl_appl, incl_refl.
  - eapply Forall2_compose; [| apply (Hg eq_refl) | apply (Hl eq_refl)].
    intros a b d (Hgt & Hname & Hloss) (Hls & Hkeep). split.
    + rewrite Hkeep. eapply converted_incl; [| exact Hgt].
      apply incl_appr, incl_appl, incl_refl.
    + rewrite <- Hname, <- Hloss. eapply converted_incl; [| exact Hls].
      apply incl_appr, incl_appr, incl_refl.
Qed.

End AdapterResult.

Section AdapterNothingNamed.

Variable Adapter : Type.
Variable New : AdapterFactory Adapter.

Lemma requested_app (a b : list (SetupEvent Adapter)) :
  requested (a ++ b) = (requested a ++ requested b)%list.
Proof.
  induction a as [| [name r | msg e] a IH]; cbn; [| rewrite IH |]; auto.
Qed.

Lemma nothing_happened (tr : list (SetupEvent Adapter)) :
  requested tr = [] -> printed tr = [] -> tr = [].
Proof.
  destruct tr as [| [name r | msg e] tr]; cbn; [reflexivity | |]; discriminate.
Qed.

Lemma filter_named_nil (l : list string) :
  filter named l = [] -> Forall (fun n => n = "") l.
Proof.
  induction l as [| n l IH]; cbn; [constructor |].
  unfold named at 1. destruct (String.eqb n "") eqn:Hn; cbn.
  - intros H. constructor; [apply String.eqb_eq; assumption | auto].
  - discriminate.
Qed.

Lemma workers_unchanged (ws ws' : list (UserWorker Adapter)) :
  Forall2 workerKept ws ws' ->
  Forall (fun n => n = "")
    (flat_map (fun w => [InferenceEntrypointName w; ForecastEntrypointName w]) ws) ->
  ws' = ws.
Proof.
  induction 1 as [| w w' ws ws' Hkept _ IH]; cbn; [reflexivity |].
  intros Hall. inversion Hall as [| ? ? Hi Hrest]; subst.
  inversion Hrest as [| ? ? Hf Hrest']; subst.
  rewrite (IH Hrest'). f_equal.
  destruct Hkept as ((Hb & Hin & Hfn) & Hki & Hkf).
  specialize (Hki Hi). specialize (Hkf Hf).
  destruct w, w'. cbn in *. congruence.
Qed.

Lemma reputers_unchanged (rs rs' : list (UserReputer Adapter)) :
  Forall2 reputerKept rs rs' ->
  Forall (fun n => n = "") (map GroundTruthEntrypointName rs) ->
  Forall (fun n => n = "") (map LossFunctionEntrypointName rs) ->
  rs' = rs.
Proof.
  induction 1 as [| r r' rs rs' Hkept _ IH]; cbn; [reflexivity |].
  intros Hg Hl.
  inversion Hg as [| ? ? Hg1 Hg']; subst. inversion Hl as [| ? ? Hl1 Hl']; subst.
  rewrite (IH Hg' Hl'). f_equal.
  destruct Hkept as ((Hb & Hgn & Hln) & Hkg & Hkl).
  specialize (Hkg Hg1). specialize (Hkl Hl1).
  destruct r, r'. cbn in *. congruence.
Qed.

(** X17. A configuration that names no entrypoint, an empty one included, is
    converted without a call to the factory, without output and without
    error, and comes back as it was: entrypoints that were set by hand stay
    set. *)
Theorem X17_nothing_named_nothing_done
  (past : list (SetupEvent Adapter)) (c : UserConfig Adapter) :
  wanted c = [] ->
  ConvertEntrypointsToInstances New past c = ([], c, None).
Proof.
  intros Hnone.
  pose proof (ConvertEntrypointsToInstances_createAll Adapter New past c) as Hpass.
  pose proof (createAll_requested Adapter New (entrypoints c) past) as Hasked.
  pose proof (createAll_failures Adapter New (entrypoints c) past) as Hstop.
  rewrite Hpass in Hasked, Hstop.
  destruct (ConvertEntrypointsToInstances New past c) as [[tr c'] err] eqn:H.
  cbn [fst snd] in Hasked, Hstop.
  destruct Hasked as (rest & Hreq & _).
  rewrite <- (wanted_entrypoints Adapter c), Hnone in Hreq. symmetry in Hreq.
  apply app_eq_nil in Hreq. destruct Hreq as [Hreq _].
  destruct err as [e|].
  - destruct Hstop as (pre & name & a & label & Htr & _).
    rewrite Htr, requested_app in Hreq. cbn in Hreq.
    apply app_eq_nil in Hreq. destruct Hreq as [_ Hreq]. discriminate Hreq.
  - destruct Hstop as [_ Hprinted].
    rewrite (nothing_happened tr Hreq Hprinted).
    destruct (ConvertEntrypointsToInstances_kept Adapter New past c c' tr None H)
      as [Hw Hr].
    unfold wanted in Hnone. apply filter_named_nil in Hnone.
    apply Forall_app in Hnone. destruct Hnone as [Hwn Hrn].
    apply Forall_app in Hrn. destruct Hrn as [Hgn Hln].
    pose proof (workers_unchanged _ _ Hw Hwn) as Ews.
    pose proof (reputers_unchanged _ _ Hr Hgn Hln) as Ers.
    destruct c, c'. cbn in *. subst. reflexivity.
Qed.

End AdapterNothingNamed.

(** ** The conversion on concrete configurations *)

Lemma X11_conversion_writes_named_entrypoints_only_witness :
  let run := ConvertEntrypointsToInstances Setup.factory [] Setup.bad in
  snd run = Some "unknown entrypoint" /\
  Forall2 workerKept (Worker Setup.bad) (Worker (snd (fst run))) /\
  Forall2 reputerKept (Reputer Setup.bad) (Reputer (snd (fst run))).
Proof.
  cbv zeta. split; [reflexivity |].
  apply (X11_conversion_writes_named_entrypoints_only string Setup.factory []
           Setup.bad
           (snd (fst (ConvertEntrypointsToInstances Setup.factory [] Setup.bad)))
           (fst (fst (ConvertEntrypointsToInstances Setup.factory [] Setup.bad)))
           (snd (ConvertEntrypointsToInstances Setup.factory [] Setup.bad))).
  reflexivity.
Defined.

Lemma X12_adapters_requested_in_loop_order_witness :
  exists rest,
    wanted Setup.good =
      (requested (fst (fst (ConvertEntrypointsToInstances Setup.factory [] Setup.good)))
       ++ rest)%list /\
    (snd (ConvertEntrypointsToInstances Setup.factory [] Setup.good) = None ->
     rest = []).
Proof.
  apply (X12_adapters_requested_in_loop_order string Setup.factory []
           Setup.good
           (snd (fst (ConvertEntrypointsToInstances Setup.factory [] Setup.good)))).
  reflexivity.
Defined.

Lemma X13_conversion_stops_at_first_failure_witness :
  exists pre name a label,
    fst (fst (ConvertEntrypointsToInstances Setup.factory [] Setup.bad)) =
      (pre ++ [EvNewAlloraAdapter name (a, Some "unknown entrypoint");
               EvPrintln label "unknown entrypoint"])%list /\
    failures pre = [] /\ printed pre = [] /\ name <> "".
Proof.
  apply (X13_conversion_stops_at_first_failure string Setup.factory []
           Setup.bad
           (snd (fst (ConvertEntrypointsToInstances Setup.factory [] Setup.bad)))
           (fst (fst (ConvertEntrypointsToInstances Setup.factory [] Setup.bad)))
           (Some "unknown entrypoint")).
  reflexivity.
Defined.

Lemma X14_conversion_succeeds_iff_every_name_accepted_witness :
  Forall (accepts Setup.factory) (wanted Setup.good) /\
  ~ Forall (accepts Setup.factory) (wanted Setup.bad).
Proof.
  split.
  - apply (X14_conversion_succeeds_iff_every_name_accepted string Setup.factory
             (fun _ _ _ => eq_refl) [] Setup.good
             (snd (fst (ConvertEntrypointsToInstances Setup.factory [] Setup.good)))
             (fst (fst (ConvertEntrypointsToInstances Setup.factory [] Setup.good)))
             None eq_refl).
    reflexivity.
  - intros Hall.
    apply (X14_conversion_succeeds_iff_every_name_accepted string Setup.factory
             (fun _ _ _ => eq_refl) [] Setup.bad
             (snd (fst (ConvertEntrypointsToInstances Setup.factory [] Setup.bad)))
             (fst (fst (ConvertEntrypointsToInstances Setup.factory [] Setup.bad)))
             (Some "unknown entrypoint") eq_refl) in Hall.
    discriminate Hall.
Defined.

Lemma X15_converting_again_changes_nothing_witness :
  let c' := snd (fst (ConvertEntrypointsToInstances Setup.factory [] Setup.good)) in
  c' = madeConfig Setup.factory Setup.good /\
  exists tr',
    ConvertEntrypointsToInstances Setup.factory [] c' = (tr', c', None) /\
    requested tr' = ["api_worker"; "api_reputer"; "api_reputer"].
Proof.
  apply (X15_converting_again_changes_nothing string Setup.factory
           (fun _ _ _ => eq_refl) [] [] Setup.good
           (snd (fst (ConvertEntrypointsToInstances Setup.factory [] Setup.good)))
           (fst (fst (ConvertEntrypointsToInstances Setup.factory [] Setup.good)))).
  reflexivity.
Defined.

Lemma X16_success_sets_every_named_entrypoint_witness :
  let run := ConvertEntrypointsToInstances Setup.factory [] Setup.good in
  Forall2
    (fun w w' =>
       converted (fst (fst run)) (InferenceEntrypointName w)
         (InferenceEntrypoint w) (InferenceEntrypoint w') /\
       converted (fst (fst run)) (ForecastEntrypointName w)
         (ForecastEntrypoint w) (ForecastEntrypoint w'))
    (Worker Setup.good) (Worker (snd (fst run))) /\
  Forall2
    (fun r r' =>
       converted (fst (fst run)) (GroundTruthEntrypointName r)
         (GroundTruthEntrypoint r) (GroundTruthEntrypoint r') /\
       converted (fst (fst run)) (LossFunctionEntrypointName r)
         (LossFunctionEntrypoint r) (LossFunctionEntrypoint r'))
    (Reputer Setup.good) (Reputer (snd (fst run))).
Proof.
  apply (X16_success_sets_every_named_entrypoint string Setup.factory []
           Setup.good).
  reflexivity.
Defined.

Lemma X17_nothing_named_nothing_done_witness :
  ConvertEntrypointsToInstances Setup.factory [] Setup.unnamed
    = ([], Setup.unnamed, None) /\
  ConvertEntrypointsToInstances Setup.factory []
    {| Worker := []; Reputer := [] |} = ([], {| Worker := []; Reputer := [] |}, None).
Proof.
  split.
  - apply (X17_nothing_named_nothing_done string Setup.factory [] Setup.unnamed).
    reflexivity.
  - apply (X17_nothing_named_nothing_done string Setup.factory []
             {| Worker := []; Reputer := [] |}).
    reflexivity.
Defined.
